(** * SecureFlow escrow: the work lifecycle of [WorkLifecycle.sol]

    A shallow embedding of the Solidity contract [WorkLifecycle]
    (startWork, submitMilestone, approveMilestone, rejectMilestone,
    resubmitMilestone, disputeMilestone, resolveDispute) and the
    properties of its milestone state machine.

    Solidity's [uint256] and [address] are binary naturals [N]; checked
    arithmetic (compiler 0.8) reverts instead of wrapping around, which is
    written out in [checked_add] and [checked_sub].  A [mapping] is a finite
    map read with the zero value as default.  A call runs in the
    transaction monad [Tx]; a revert discards every write of the call. *)

From stdpp Require Import gmap strings list.

Local Open Scope N_scope.
Local Open Scope string_scope.

(** ** Machine types *)

Abbreviation address := N.
Abbreviation uint256 := N.

Definition MAX_UINT256 : N := Eval vm_compute in 2 ^ 256 - 1.

Inductive EscrowStatus := Pending | InProgress | Disputed | Released | Cancelled.

Inductive MilestoneStatus :=
  NotStarted | Submitted | Approved | MDisputed | Resolved | Rejected.

#[global] Instance EscrowStatus_eq_dec : EqDecision EscrowStatus.
Proof. solve_decision. Defined.

#[global] Instance MilestoneStatus_eq_dec : EqDecision MilestoneStatus.
Proof. solve_decision. Defined.

(** The struct [Milestone]; [Milestone.zero] is the value a mapping holds
    at a key that was never written. *)
Module Milestone.
Record t := mk {
  description : string;
  amount : uint256;
  status : MilestoneStatus;
  submittedAt : uint256;
  approvedAt : uint256;
  disputedAt : uint256;
  disputedBy : address;
  disputeReason : string
}.

Definition zero : t := mk "" 0 NotStarted 0 0 0 0 "".

Definition with_description (d : string) (m : t) : t :=
  mk d (amount m) (status m) (submittedAt m) (approvedAt m)
     (disputedAt m) (disputedBy m) (disputeReason m).
Definition with_status (st : MilestoneStatus) (m : t) : t :=
  mk (description m) (amount m) st (submittedAt m) (approvedAt m)
     (disputedAt m) (disputedBy m) (disputeReason m).
Definition with_submittedAt (n : uint256) (m : t) : t :=
  mk (description m) (amount m) (status m) n (approvedAt m)
     (disputedAt m) (disputedBy m) (disputeReason m).
Definition with_approvedAt (n : uint256) (m : t) : t :=
  mk (description m) (amount m) (status m) (submittedAt m) n
     (disputedAt m) (disputedBy m) (disputeReason m).
Definition with_disputedAt (n : uint256) (m : t) : t :=
  mk (description m) (amount m) (status m) (submittedAt m) (approvedAt m)
     n (disputedBy m) (disputeReason m).
Definition with_disputedBy (a : address) (m : t) : t :=
  mk (description m) (amount m) (status m) (submittedAt m) (approvedAt m)
     (disputedAt m) a (disputeReason m).
Definition with_disputeReason (r : string) (m : t) : t :=
  mk (description m) (amount m) (status m) (submittedAt m) (approvedAt m)
     (disputedAt m) (disputedBy m) r.
End Milestone.

(** The struct [EscrowData], with the fields the lifecycle reads or writes
    and those the data model of the engine lists. *)
Module EscrowData.
Record t := mk {
  depositor : address;
  beneficiary : address;
  arbiters : list address;
  requiredConfirmations : N;
  status : EscrowStatus;
  totalAmount : uint256;
  paidAmount : uint256;
  platformFee : uint256;
  token : address;
  deadline : uint256;
  workStarted : bool;
  createdAt : uint256;
  milestoneCount : uint256
}.

Definition zero : t := mk 0 0 [] 0 Pending 0 0 0 0 0 false 0 0.

Definition with_status (st : EscrowStatus) (e : t) : t :=
  mk (depositor e) (beneficiary e) (arbiters e) (requiredConfirmations e)
     st (totalAmount e) (paidAmount e) (platformFee e) (token e)
     (deadline e) (workStarted e) (createdAt e) (milestoneCount e).
Definition with_paidAmount (n : uint256) (e : t) : t :=
  mk (depositor e) (beneficiary e) (arbiters e) (requiredConfirmations e)
     (status e) (totalAmount e) n (platformFee e) (token e)
     (deadline e) (workStarted e) (createdAt e) (milestoneCount e).
Definition with_workStarted (b : bool) (e : t) : t :=
  mk (depositor e) (beneficiary e) (arbiters e) (requiredConfirmations e)
     (status e) (totalAmount e) (paidAmount e) (platformFee e) (token e)
     (deadline e) b (createdAt e) (milestoneCount e).
End EscrowData.

(** ** Events and outgoing transfers *)

Inductive Event :=
  | WorkStarted (escrowId : uint256) (by_ : address) (at_ : uint256)
  | EscrowUpdated (escrowId : uint256) (st : EscrowStatus) (at_ : uint256)
  | MilestoneSubmitted (escrowId idx : uint256) (by_ : address)
      (description : string) (at_ : uint256)
  | MilestoneApproved (escrowId idx : uint256) (by_ : address)
      (amount at_ : uint256)
  | MilestoneRejected (escrowId idx : uint256) (by_ : address)
      (reason : string) (at_ : uint256)
  | MilestoneResubmitted (escrowId idx : uint256) (by_ : address)
      (description : string) (at_ : uint256)
  | MilestoneDisputed (escrowId idx : uint256) (by_ : address)
      (reason : string) (at_ : uint256)
  | DisputeResolved (escrowId idx : uint256) (by_ : address)
      (beneficiaryAmount refundAmount at_ : uint256)
  | EscrowCompleted (escrowId : uint256) (beneficiary : address)
      (paid : uint256)
  | RewardClaimFailed (reason : string)
  | ReputationUpdated (user : address) (points : uint256) (reason : string).

(** One payment leaving custody: [_transferOut(token, to, amount)]. *)
Record Transfer := mkTransfer {
  tr_token : address;
  tr_to : address;
  tr_amount : uint256
}.

(** ** Contract storage *)

Record Storage := mkStorage {
  escrows : gmap N EscrowData.t;
  milestones : gmap (N * N) Milestone.t;
  escrowedAmount : gmap N N;
  totalFeesByToken : gmap N N;
  reputation : gmap N N;
  completedEscrows : gmap N N;
  nextEscrowId : uint256;
  paused : bool;
  entered : bool;
  engagementRewards : address;
  transfers : list Transfer;
  events : list Event
}.

Definition set_escrows (f : gmap N EscrowData.t -> gmap N EscrowData.t)
    (s : Storage) : Storage :=
  mkStorage (f (escrows s)) (milestones s) (escrowedAmount s)
    (totalFeesByToken s) (reputation s) (completedEscrows s) (nextEscrowId s)
    (paused s) (entered s) (engagementRewards s) (transfers s) (events s).
Definition set_milestones
    (f : gmap (N * N) Milestone.t -> gmap (N * N) Milestone.t)
    (s : Storage) : Storage :=
  mkStorage (escrows s) (f (milestones s)) (escrowedAmount s)
    (totalFeesByToken s) (reputation s) (completedEscrows s) (nextEscrowId s)
    (paused s) (entered s) (engagementRewards s) (transfers s) (events s).
Definition set_escrowedAmount (f : gmap N N -> gmap N N)
    (s : Storage) : Storage :=
  mkStorage (escrows s) (milestones s) (f (escrowedAmount s))
    (totalFeesByToken s) (reputation s) (completedEscrows s) (nextEscrowId s)
    (paused s) (entered s) (engagementRewards s) (transfers s) (events s).
Definition set_totalFeesByToken (f : gmap N N -> gmap N N)
    (s : Storage) : Storage :=
  mkStorage (escrows s) (milestones s) (escrowedAmount s)
    (f (totalFeesByToken s)) (reputation s) (completedEscrows s)
    (nextEscrowId s) (paused s) (entered s) (engagementRewards s)
    (transfers s) (events s).
Definition set_reputation (f : gmap N N -> gmap N N)
    (s : Storage) : Storage :=
  mkStorage (escrows s) (milestones s) (escrowedAmount s)
    (totalFeesByToken s) (f (reputation s)) (completedEscrows s)
    (nextEscrowId s) (paused s) (entered s) (engagementRewards s)
    (transfers s) (events s).
Definition set_completedEscrows (f : gmap N N -> gmap N N)
    (s : Storage) : Storage :=
  mkStorage (escrows s) (milestones s) (escrowedAmount s)
    (totalFeesByToken s) (reputation s) (f (completedEscrows s))
    (nextEscrowId s) (paused s) (entered s) (engagementRewards s)
    (transfers s) (events s).
Definition set_entered (b : bool) (s : Storage) : Storage :=
  mkStorage (escrows s) (milestones s) (escrowedAmount s)
    (totalFeesByToken s) (reputation s) (completedEscrows s) (nextEscrowId s)
    (paused s) b (engagementRewards s) (transfers s) (events s).
Definition push_transfer (t : Transfer) (s : Storage) : Storage :=
  mkStorage (escrows s) (milestones s) (escrowedAmount s)
    (totalFeesByToken s) (reputation s) (completedEscrows s) (nextEscrowId s)
    (paused s) (entered s) (engagementRewards s) (transfers s ++ [t])
    (events s).
Definition push_event (ev : Event) (s : Storage) : Storage :=
  mkStorage (escrows s) (milestones s) (escrowedAmount s)
    (totalFeesByToken s) (reputation s) (completedEscrows s) (nextEscrowId s)
    (paused s) (entered s) (engagementRewards s) (transfers s)
    (events s ++ [ev]).

(** Reading a mapping: the zero value where nothing was stored. *)
Definition escrow_at (s : Storage) (escrowId : N) : EscrowData.t :=
  default EscrowData.zero (escrows s !! escrowId).
Definition milestone_at (s : Storage) (escrowId idx : N) : Milestone.t :=
  default Milestone.zero (milestones s !! (escrowId, idx)).
Definition counter_at (m : gmap N N) (k : N) : N := default 0 (m !! k).

(** ** The transaction monad *)

Inductive Failure :=
  | Error (reason : string)        (* require(cond, reason) failed *)
  | Panic (code : N)               (* 0x11: arithmetic over- or underflow *)
  | NoData.                        (* a revert without return data *)

Inductive Result (A : Type) :=
  | Ok (a : A)
  | Revert (f : Failure).
Arguments Ok {A} a.
Arguments Revert {A} f.

Definition Tx (A : Type) : Type := Storage -> Result (A * Storage).

Definition ret {A} (a : A) : Tx A := fun s => Ok (a, s).
Definition bind {A B} (m : Tx A) (k : A -> Tx B) : Tx B :=
  fun s => match m s with
           | Ok (a, s1) => k a s1
           | Revert f => Revert f
           end.
Definition fail {A} (f : Failure) : Tx A := fun _ => Revert f.
Definition read {A} (g : Storage -> A) : Tx A := fun s => Ok (g s, s).
Definition write (g : Storage -> Storage) : Tx unit := fun s => Ok (tt, g s).

Declare Scope tx_scope.
Delimit Scope tx_scope with tx.
Bind Scope tx_scope with Tx.
Notation "x ← m ; k" := (bind m (fun x => k))
  (at level 20, m at level 100, k at level 200, only parsing) : tx_scope.
Notation "m ;; k" := (bind m (fun _ => k))
  (at level 100, k at level 200, only parsing, right associativity) : tx_scope.
Local Open Scope tx_scope.

Definition require (cond : bool) (reason : string) : Tx unit :=
  if cond then ret tt else fail (Error reason).

Definition when (cond : bool) (body : Tx unit) : Tx unit :=
  if cond then body else ret tt.

Definition checked_add (a b : N) : Tx N :=
  if bool_decide (a + b <= MAX_UINT256) then ret (a + b) else fail (Panic 17).
Definition checked_sub (a b : N) : Tx N :=
  if bool_decide (b <= a) then ret (a - b) else fail (Panic 17).

Definition emit (ev : Event) : Tx unit := write (push_event ev).

(** [msg.sender] and [block.timestamp] of a call. *)
Record Msg := mkMsg { sender : address; timestamp : uint256 }.

(** ** What [EscrowCore.sol] supplies

    [WorkLifecycle] inherits its storage, constants, modifiers and the
    internal helpers [_transferOut] and [_updateReputation] from
    [EscrowCore], whose text is not part of the sources at hand.  The
    constants and the outcome of the two external calls are the fields of
    [Env]; the modifiers and helpers are modelled below. *)

(** What the external call [engagementRewards.appClaim(...)] under
    [try] comes to.  The first three outcomes are the three clauses of the
    statement: the call returns, it reverts with [Error(string)], or it
    fails in any other way inside the callee.  The fourth is a failure
    that [try] does not catch, because it arises in the caller: there is
    no code at the target address, or the data returned does not decode as
    a [bool]. *)
Inductive ClaimOutcome :=
  | ClaimReturned (success : bool)
  | ClaimError (reason : string)
  | ClaimUnknown
  | ClaimUncaught.

Record Env := mkEnv {
  DISPUTE_PERIOD : uint256;
  MIN_REP_ELIGIBLE_ESCROW_VALUE : uint256;
  REPUTATION_PER_MILESTONE : uint256;
  REPUTATION_PER_ESCROW : uint256;
  (* does the token transfer to [to] go through? (token, to, amount) *)
  transferSucceeds : address -> address -> uint256 -> bool;
  (* engagementRewards.appClaim(user, inviter, validUntilBlock, signature) *)
  appClaim : address -> address -> uint256 -> string -> ClaimOutcome
}.

Section WorkLifecycle.
Variable env : Env.

Definition load_escrow (escrowId : N) : Tx EscrowData.t :=
  read (fun s => escrow_at s escrowId).
Definition load_milestone (escrowId idx : N) : Tx Milestone.t :=
  read (fun s => milestone_at s escrowId idx).

(** A write through the storage pointer [e] (resp. [m]). *)
Definition update_escrow (escrowId : N) (f : EscrowData.t -> EscrowData.t)
    : Tx unit :=
  write (fun s => set_escrows (insert escrowId (f (escrow_at s escrowId))) s).
Definition update_milestone (escrowId idx : N)
    (f : Milestone.t -> Milestone.t) : Tx unit :=
  write (fun s =>
    set_milestones (insert (escrowId, idx) (f (milestone_at s escrowId idx))) s).

(** [e.paidAmount += v] *)
Definition add_paidAmount (escrowId : N) (v : N) : Tx unit :=
  e ← load_escrow escrowId;
  n ← checked_add (EscrowData.paidAmount e) v;
  update_escrow escrowId (EscrowData.with_paidAmount n).

(** [escrowedAmount[tok] -= v] *)
Definition sub_escrowedAmount (tok : address) (v : N) : Tx unit :=
  c ← read (fun s => counter_at (escrowedAmount s) tok);
  n ← checked_sub c v;
  write (set_escrowedAmount (insert tok n)).

(** [totalFeesByToken[tok] += v] *)
Definition add_totalFeesByToken (tok : address) (v : N) : Tx unit :=
  c ← read (fun s => counter_at (totalFeesByToken s) tok);
  n ← checked_add c v;
  write (set_totalFeesByToken (insert tok n)).

(** [completedEscrows[user] += v] *)
Definition add_completedEscrows (user : address) (v : N) : Tx unit :=
  c ← read (fun s => counter_at (completedEscrows s) user);
  n ← checked_add c v;
  write (set_completedEscrows (insert user n)).

(** Modelled from the spec: the modifier [onlyBeneficiary] is declared in
    EscrowCore.sol, which is missing; the spec's start_work and the
    lifecycle table require [caller == escrow.beneficiary].  The revert
    reason is a placeholder. *)
Definition onlyBeneficiary (msg : Msg) (escrowId : N) (body : Tx unit)
    : Tx unit :=
  e ← load_escrow escrowId;
  require (bool_decide (sender msg = EscrowData.beneficiary e))
    "Only beneficiary";;
  body.

(** Modelled from the spec: the modifier [onlyDepositor] is declared in
    EscrowCore.sol, which is missing; the lifecycle table gates approve,
    reject and dispute on the depositor.  The revert reason is a
    placeholder. *)
Definition onlyDepositor (msg : Msg) (escrowId : N) (body : Tx unit)
    : Tx unit :=
  e ← load_escrow escrowId;
  require (bool_decide (sender msg = EscrowData.depositor e))
    "Only depositor";;
  body.

(** Modelled from the spec: the modifier [onlyEscrowParticipant] is declared
    in EscrowCore.sol, which is missing; the spec admits the depositor, the
    beneficiary or one of the escrow's arbiters, with no quorum.  The revert
    reason is a placeholder. *)
Definition onlyEscrowParticipant (msg : Msg) (escrowId : N) (body : Tx unit)
    : Tx unit :=
  e ← load_escrow escrowId;
  require (bool_decide (sender msg = EscrowData.depositor e)
           || bool_decide (sender msg = EscrowData.beneficiary e)
           || bool_decide (sender msg ∈ EscrowData.arbiters e))
    "Not participant";;
  body.

(** Modelled from the spec: the modifier [validEscrow] is declared in
    EscrowCore.sol, which is missing; escrow ids are assigned monotonically
    and a bad id is the spec's NotFound, so an id is valid when it was
    already assigned.  The revert reason is a placeholder. *)
Definition validEscrow (escrowId : N) (body : Tx unit) : Tx unit :=
  next ← read nextEscrowId;
  require (bool_decide (escrowId < next)) "Invalid escrow";;
  body.

(** Modelled from the spec: the modifier [nonReentrant] comes with
    EscrowCore.sol, which is missing; the spec asks for an execution lock
    held for the duration of the operation and a nested call to fail. *)
Definition nonReentrant (body : Tx unit) : Tx unit :=
  locked ← read entered;
  require (negb locked) "ReentrancyGuard: reentrant call";;
  write (set_entered true);;
  body;;
  write (set_entered false).

(** Modelled from the spec: the modifier [whenNotPaused] comes with
    EscrowCore.sol, which is missing; the spec names no pause switch, so
    the guard is the plain flag the modifier's name stands for. *)
Definition whenNotPaused (body : Tx unit) : Tx unit :=
  p ← read paused;
  require (negb p) "Pausable: paused";;
  body.

(** Modelled from the spec: [_transferOut] is defined in EscrowCore.sol,
    which is missing; the spec's transfer_out is all-or-nothing: the payment
    leaves custody, or the calling operation aborts. *)
Definition _transferOut (tok to : address) (amount : N) : Tx unit :=
  require (transferSucceeds env tok to amount) "Transfer failed";;
  write (push_transfer (mkTransfer tok to amount)).

(** Modelled from the spec: [_updateReputation] is defined in
    EscrowCore.sol, which is missing, and the spec leaves reputation out of
    scope; it is taken as a credit to the user's counter, the effect its
    call sites imply. *)
Definition _updateReputation (user : address) (points : N) (reason : string)
    : Tx unit :=
  c ← read (fun s => counter_at (reputation s) user);
  n ← checked_add c points;
  write (set_reputation (insert user n));;
  emit (ReputationUpdated user points reason).

(** The GoodDollar reward claim of [approveMilestone]: an external call
    under try/catch.  A failure inside the callee is logged and goes no
    further; a failure that [try] does not catch reverts the approval. *)
Definition claimReward (msg : Msg) (validUntilBlock : N) (signature : string)
    : Tx unit :=
  rewards ← read engagementRewards;
  when (negb (bool_decide (rewards = 0)))
    (match appClaim env (sender msg) 0 validUntilBlock signature with
     | ClaimReturned success =>
         when (negb success) (emit (RewardClaimFailed "Claim returned false"))
     | ClaimError reason => emit (RewardClaimFailed reason)
     | ClaimUnknown => emit (RewardClaimFailed "Unknown error")
     | ClaimUncaught => fail NoData
     end).

(** ** The seven operations *)

Definition startWork (msg : Msg) (escrowId : N) : Tx unit :=
  onlyBeneficiary msg escrowId (validEscrow escrowId (nonReentrant
  (whenNotPaused (
    e ← load_escrow escrowId;
    require (bool_decide (EscrowData.status e = Pending)) "Invalid status";;
    require (negb (EscrowData.workStarted e)) "Work started";;

    update_escrow escrowId (EscrowData.with_workStarted true);;
    update_escrow escrowId (EscrowData.with_status InProgress);;

    when (bool_decide (0 < EscrowData.platformFee e))
      (add_totalFeesByToken (EscrowData.token e) (EscrowData.platformFee e));;

    emit (WorkStarted escrowId (sender msg) (timestamp msg));;
    emit (EscrowUpdated escrowId InProgress (timestamp msg)))))).

Definition submitMilestone (msg : Msg) (escrowId milestoneIndex : N)
    (description : string) : Tx unit :=
  onlyBeneficiary msg escrowId (validEscrow escrowId (nonReentrant
  (whenNotPaused (
    e ← load_escrow escrowId;
    require (bool_decide (EscrowData.status e = InProgress))
      "Invalid status";;
    require (bool_decide (milestoneIndex < EscrowData.milestoneCount e))
      "Invalid milestone";;

    m ← load_milestone escrowId milestoneIndex;
    require (bool_decide (Milestone.status m = NotStarted))
      "Already submitted/processed";;

    update_milestone escrowId milestoneIndex
      (Milestone.with_status Submitted);;
    update_milestone escrowId milestoneIndex
      (Milestone.with_submittedAt (timestamp msg));;
    when (bool_decide (0 < N.of_nat (String.length description)))
      (update_milestone escrowId milestoneIndex
         (Milestone.with_description description));;

    m ← load_milestone escrowId milestoneIndex;
    emit (MilestoneSubmitted escrowId milestoneIndex (sender msg)
            (Milestone.description m) (timestamp msg)))))).

Definition approveMilestone (msg : Msg) (escrowId milestoneIndex : N)
    (validUntilBlock : N) (signature : string) : Tx unit :=
  onlyDepositor msg escrowId (validEscrow escrowId (nonReentrant
  (whenNotPaused (
    e ← load_escrow escrowId;
    require (bool_decide (EscrowData.status e = InProgress))
      "Escrow not active";;
    require (bool_decide (milestoneIndex < EscrowData.milestoneCount e))
      "Invalid milestone";;

    m ← load_milestone escrowId milestoneIndex;
    require (bool_decide (Milestone.status m = Submitted)) "Not submitted";;

    let amount := Milestone.amount m in
    update_milestone escrowId milestoneIndex (Milestone.with_status Approved);;
    update_milestone escrowId milestoneIndex
      (Milestone.with_approvedAt (timestamp msg));;

    add_paidAmount escrowId amount;;
    sub_escrowedAmount (EscrowData.token e) amount;;

    _transferOut (EscrowData.token e) (EscrowData.beneficiary e) amount;;

    emit (MilestoneApproved escrowId milestoneIndex (sender msg) amount
            (timestamp msg));;

    claimReward msg validUntilBlock signature;;

    when (bool_decide
            (MIN_REP_ELIGIBLE_ESCROW_VALUE env <= EscrowData.totalAmount e))
      (_updateReputation (EscrowData.beneficiary e)
         (REPUTATION_PER_MILESTONE env) "Milestone approved");;

    e' ← load_escrow escrowId;
    when (bool_decide (EscrowData.paidAmount e' = EscrowData.totalAmount e'))
      (update_escrow escrowId (EscrowData.with_status Released);;
       when (bool_decide
               (MIN_REP_ELIGIBLE_ESCROW_VALUE env <= EscrowData.totalAmount e'))
         (_updateReputation (EscrowData.beneficiary e')
            (REPUTATION_PER_ESCROW env) "Escrow completed";;
          _updateReputation (EscrowData.depositor e')
            (REPUTATION_PER_ESCROW env) "Escrow completed");;
       add_completedEscrows (EscrowData.beneficiary e') 1;;
       add_completedEscrows (EscrowData.depositor e') 1;;
       emit (EscrowCompleted escrowId (EscrowData.beneficiary e')
               (EscrowData.paidAmount e'));;
       emit (EscrowUpdated escrowId Released (timestamp msg))))))).

Definition rejectMilestone (msg : Msg) (escrowId milestoneIndex : N)
    (reason : string) : Tx unit :=
  onlyDepositor msg escrowId (validEscrow escrowId (nonReentrant
  (whenNotPaused (
    e ← load_escrow escrowId;
    require (bool_decide (EscrowData.status e = InProgress))
      "Escrow not active";;
    require (bool_decide (milestoneIndex < EscrowData.milestoneCount e))
      "Invalid milestone";;

    m ← load_milestone escrowId milestoneIndex;
    require (bool_decide (Milestone.status m = Submitted)) "Not submitted";;

    update_milestone escrowId milestoneIndex (Milestone.with_status Rejected);;
    update_milestone escrowId milestoneIndex
      (Milestone.with_disputedAt (timestamp msg));;
    update_milestone escrowId milestoneIndex
      (Milestone.with_disputedBy (sender msg));;
    update_milestone escrowId milestoneIndex
      (Milestone.with_disputeReason reason);;

    emit (MilestoneRejected escrowId milestoneIndex (sender msg) reason
            (timestamp msg)))))).

Definition resubmitMilestone (msg : Msg) (escrowId milestoneIndex : N)
    (description : string) : Tx unit :=
  onlyBeneficiary msg escrowId (validEscrow escrowId (nonReentrant
  (whenNotPaused (
    e ← load_escrow escrowId;
    require (bool_decide (EscrowData.status e = InProgress))
      "Escrow not active";;
    require (bool_decide (milestoneIndex < EscrowData.milestoneCount e))
      "Invalid milestone";;

    m ← load_milestone escrowId milestoneIndex;
    require (bool_decide (Milestone.status m = Rejected)) "Not rejected";;

    update_milestone escrowId milestoneIndex
      (Milestone.with_status Submitted);;
    update_milestone escrowId milestoneIndex
      (Milestone.with_submittedAt (timestamp msg));;
    when (bool_decide (0 < N.of_nat (String.length description)))
      (update_milestone escrowId milestoneIndex
         (Milestone.with_description description));;

    m ← load_milestone escrowId milestoneIndex;
    emit (MilestoneResubmitted escrowId milestoneIndex (sender msg)
            (Milestone.description m) (timestamp msg)))))).

Definition disputeMilestone (msg : Msg) (escrowId milestoneIndex : N)
    (reason : string) : Tx unit :=
  onlyDepositor msg escrowId (validEscrow escrowId (nonReentrant
  (whenNotPaused (
    m ← load_milestone escrowId milestoneIndex;
    require (bool_decide (Milestone.status m = Submitted)) "Not submitted";;
    limit ← checked_add (Milestone.submittedAt m) (DISPUTE_PERIOD env);
    require (bool_decide (timestamp msg <= limit)) "Dispute period expired";;

    update_milestone escrowId milestoneIndex
      (Milestone.with_status MDisputed);;
    update_milestone escrowId milestoneIndex
      (Milestone.with_disputedAt (timestamp msg));;
    update_milestone escrowId milestoneIndex
      (Milestone.with_disputedBy (sender msg));;
    update_milestone escrowId milestoneIndex
      (Milestone.with_disputeReason reason);;

    update_escrow escrowId (EscrowData.with_status Disputed);;

    emit (MilestoneDisputed escrowId milestoneIndex (sender msg) reason
            (timestamp msg));;
    emit (EscrowUpdated escrowId Disputed (timestamp msg)))))).

Definition resolveDispute (msg : Msg) (escrowId milestoneIndex : N)
    (beneficiaryAmount : N) (resolutionReason : string) : Tx unit :=
  onlyEscrowParticipant msg escrowId (validEscrow escrowId (nonReentrant
  (whenNotPaused (
    e ← load_escrow escrowId;
    require (bool_decide (EscrowData.status e = Disputed)) "Not in dispute";;

    m ← load_milestone escrowId milestoneIndex;
    require (bool_decide (Milestone.status m = MDisputed)) "Not disputed";;

    let milestoneAmount := Milestone.amount m in
    require (bool_decide (beneficiaryAmount <= milestoneAmount))
      "Invalid allocation";;

    refundAmount ← checked_sub milestoneAmount beneficiaryAmount;

    update_milestone escrowId milestoneIndex (Milestone.with_status Resolved);;
    update_milestone escrowId milestoneIndex
      (Milestone.with_approvedAt (timestamp msg));;

    update_milestone escrowId milestoneIndex
      (Milestone.with_disputeReason resolutionReason);;

    let winner := if bool_decide (refundAmount < beneficiaryAmount)
                  then EscrowData.beneficiary e else EscrowData.depositor e in
    update_milestone escrowId milestoneIndex
      (Milestone.with_disputedBy winner);;

    when (bool_decide (0 < beneficiaryAmount))
      (add_paidAmount escrowId beneficiaryAmount;;
       sub_escrowedAmount (EscrowData.token e) beneficiaryAmount;;
       _transferOut (EscrowData.token e) (EscrowData.beneficiary e)
         beneficiaryAmount);;

    when (bool_decide (0 < refundAmount))
      (sub_escrowedAmount (EscrowData.token e) refundAmount;;
       _transferOut (EscrowData.token e) (EscrowData.depositor e)
         refundAmount);;

    update_escrow escrowId (EscrowData.with_status InProgress);;

    emit (DisputeResolved escrowId milestoneIndex (sender msg)
            beneficiaryAmount refundAmount (timestamp msg));;
    emit (EscrowUpdated escrowId InProgress (timestamp msg));;

    e' ← load_escrow escrowId;
    when (bool_decide (EscrowData.paidAmount e' = EscrowData.totalAmount e'))
      (update_escrow escrowId (EscrowData.with_status Released);;
       emit (EscrowCompleted escrowId (EscrowData.beneficiary e')
               (EscrowData.paidAmount e'));;
       emit (EscrowUpdated escrowId Released (timestamp msg))))))).

(** ** Transactions

    An external call either commits its writes or reverts and leaves the
    storage as it found it. *)

Inductive Call :=
  | CStartWork (escrowId : N)
  | CSubmitMilestone (escrowId milestoneIndex : N) (description : string)
  | CApproveMilestone (escrowId milestoneIndex validUntilBlock : N)
      (signature : string)
  | CRejectMilestone (escrowId milestoneIndex : N) (reason : string)
  | CResubmitMilestone (escrowId milestoneIndex : N) (description : string)
  | CDisputeMilestone (escrowId milestoneIndex : N) (reason : string)
  | CResolveDispute (escrowId milestoneIndex beneficiaryAmount : N)
      (resolutionReason : string).

Definition dispatch (msg : Msg) (c : Call) : Tx unit :=
  match c with
  | CStartWork i => startWork msg i
  | CSubmitMilestone i k d => submitMilestone msg i k d
  | CApproveMilestone i k v sg => approveMilestone msg i k v sg
  | CRejectMilestone i k r => rejectMilestone msg i k r
  | CResubmitMilestone i k d => resubmitMilestone msg i k d
  | CDisputeMilestone i k r => disputeMilestone msg i k r
  | CResolveDispute i k b r => resolveDispute msg i k b r
  end.

(** The storage after the transaction [tx], started from [s]. *)
Definition commit (tx : Tx unit) (s : Storage) : Storage :=
  match tx s with
  | Ok (_, s') => s'
  | Revert _ => s
  end.

(** Does the transaction commit? *)
Definition commits (tx : Tx unit) (s : Storage) : bool :=
  match tx s with
  | Ok _ => true
  | Revert _ => false
  end.

Definition step (s : Storage) (mc : Msg * Call) : Storage :=
  commit (dispatch (fst mc) (snd mc)) s.

Definition run (calls : list (Msg * Call)) (s : Storage) : Storage :=
  fold_left step calls s.

End WorkLifecycle.

(** ** Derived quantities of one escrow *)

(** [f 0 + f 1 + ... + f (k-1)] *)
Fixpoint sum_upto (f : N -> N) (k : nat) : N :=
  match k with
  | O => 0
  | S k' => sum_upto f k' + f (N.of_nat k')
  end.

(** The milestone indices of an escrow, [0 .. n-1]. *)
Definition indices (n : N) : list N := map N.of_nat (seq 0 (N.to_nat n)).

Definition sum_milestones (f : Milestone.t -> N) (s : Storage) (escrowId : N)
    : N :=
  sum_upto (fun i => f (milestone_at s escrowId i))
    (N.to_nat (EscrowData.milestoneCount (escrow_at s escrowId))).

(** [sum(milestone.amount for milestone in escrow)] *)
Definition milestone_total (s : Storage) (escrowId : N) : N :=
  sum_milestones Milestone.amount s escrowId.

(** A milestone is settled once its money has left custody. *)
Definition settled (st : MilestoneStatus) : bool :=
  match st with
  | Approved | Resolved => true
  | _ => false
  end.

Definition open_amount (m : Milestone.t) : N :=
  if settled (Milestone.status m) then 0 else Milestone.amount m.

(** What the milestones not yet settled can still pay out. *)
Definition unsettled_total (s : Storage) (escrowId : N) : N :=
  sum_milestones open_amount s escrowId.

(** The number of milestones of the escrow that are in dispute. *)
Definition disputed_count (s : Storage) (escrowId : N) : nat :=
  length (filter
    (fun i => Milestone.status (milestone_at s escrowId i) = MDisputed)
    (indices (EscrowData.milestoneCount (escrow_at s escrowId)))).

(** Modelled from the spec: the creation of an escrow (createEscrow and its
    helpers) is missing from the sources.  By the spec a new escrow is
    Pending, work has not started, nothing is paid, its total is the sum of
    its milestone amounts, and every milestone is NotStarted; no milestone
    record of the escrow carries another status, inside or outside the
    milestone array. *)
Definition fresh (s : Storage) (escrowId : N) : bool :=
  let e := escrow_at s escrowId in
  bool_decide (EscrowData.status e = Pending)
  && negb (EscrowData.workStarted e)
  && bool_decide (EscrowData.paidAmount e = 0)
  && bool_decide (milestone_total s escrowId = EscrowData.totalAmount e)
  && forallb
       (fun km : N * N * Milestone.t =>
          negb (bool_decide (fst (fst km) = escrowId))
          || bool_decide (Milestone.status (snd km) = NotStarted))
       (map_to_list (milestones s)).

(** Every milestone of the escrow is worth something. *)
Definition positive_amounts (s : Storage) (escrowId : N) : bool :=
  forallb
    (fun i => bool_decide (0 < Milestone.amount (milestone_at s escrowId i)))
    (indices (EscrowData.milestoneCount (escrow_at s escrowId))).

(** The contract is neither paused nor inside a call, and the escrow id
    has been assigned: the modifiers shared by all operations pass. *)
Definition callable (s : Storage) (escrowId : N) : bool :=
  bool_decide (escrowId < nextEscrowId s) && negb (paused s)
  && negb (entered s).

(** ** A worked example: one escrow of two milestones, 100 and 200 *)

Module Demo.
Definition env : Env :=
  mkEnv 604800 1000 10 50 (fun _ _ _ => true) (fun _ _ _ _ => ClaimUnknown).

Definition client : address := 10.
Definition freelancer : address := 20.
Definition arbiter : address := 30.
Definition cUSD : address := 7.

Definition escrow (total fee : N) : EscrowData.t :=
  EscrowData.mk client freelancer [arbiter] 1 Pending total 0 fee cUSD
    2000000 false 1000 2.

Definition milestone (d : string) (a : N) : Milestone.t :=
  Milestone.mk d a NotStarted 0 0 0 0 "".

(** Escrow 1 with milestones worth [a0] and [a1]. *)
Definition storage (a0 a1 fee : N) : Storage :=
  mkStorage {[ 1 := escrow (a0 + a1) fee ]}
    {[ (1, 0) := milestone "design" a0; (1, 1) := milestone "build" a1 ]}
    {[ cUSD := a0 + a1 ]} ∅ ∅ ∅ 2 false false 0 [] [].

Definition s0 : Storage := storage 100 200 3.

Definition by_freelancer (t : N) : Msg := mkMsg freelancer t.
Definition by_client (t : N) : Msg := mkMsg client t.

(** Work started. *)
Definition working : list (Msg * Call) :=
  [ (by_freelancer 1000, CStartWork 1) ].

(** Both milestones submitted. *)
Definition both_submitted : list (Msg * Call) :=
  working ++
  [ (by_freelancer 1001, CSubmitMilestone 1 0 "");
    (by_freelancer 1002, CSubmitMilestone 1 1 "built") ].

(** ... and the first one disputed. *)
Definition disputed : list (Msg * Call) :=
  both_submitted ++ [ (by_client 1003, CDisputeMilestone 1 0 "incomplete") ].

(** ... and then the second one as well. *)
Definition disputed_twice : list (Msg * Call) :=
  disputed ++ [ (by_client 1004, CDisputeMilestone 1 1 "late") ].

(** An escrow whose second milestone is worth nothing, led to Released
    by the approval of the first. *)
Definition z0 : Storage := storage 100 0 0.
Definition released : list (Msg * Call) :=
  both_submitted ++ [ (by_client 1003, CApproveMilestone 1 0 0 "") ].

(** Both milestones approved: the escrow is paid in full. *)
Definition completed : list (Msg * Call) :=
  released ++ [ (by_client 1004, CApproveMilestone 1 1 0 "") ].
End Demo.

(** ** Post-states

    What a committed operation leaves in the escrow record and in the
    milestone record it addresses. *)

Definition started (e : EscrowData.t) : EscrowData.t :=
  EscrowData.with_status InProgress (EscrowData.with_workStarted true e).

Definition submitted (now : N) (description : string) (m : Milestone.t)
    : Milestone.t :=
  let m1 := Milestone.with_submittedAt now (Milestone.with_status Submitted m) in
  if bool_decide (0 < N.of_nat (String.length description))
  then Milestone.with_description description m1 else m1.

(** Released as soon as everything is paid. *)
Definition settle (e : EscrowData.t) : EscrowData.t :=
  if bool_decide (EscrowData.paidAmount e = EscrowData.totalAmount e)
  then EscrowData.with_status Released e else e.

Definition approved (amount : N) (e : EscrowData.t) : EscrowData.t :=
  settle (EscrowData.with_paidAmount (EscrowData.paidAmount e + amount) e).

Definition approved_m (now : N) (m : Milestone.t) : Milestone.t :=
  Milestone.with_approvedAt now (Milestone.with_status Approved m).

Definition flagged (st : MilestoneStatus) (msg : Msg) (reason : string)
    (m : Milestone.t) : Milestone.t :=
  Milestone.with_disputeReason reason
    (Milestone.with_disputedBy (sender msg)
       (Milestone.with_disputedAt (timestamp msg)
          (Milestone.with_status st m))).

Definition resolved (beneficiaryAmount : N) (e : EscrowData.t)
    : EscrowData.t :=
  let e1 := if bool_decide (0 < beneficiaryAmount)
            then EscrowData.with_paidAmount
                   (EscrowData.paidAmount e + beneficiaryAmount) e
            else e in
  settle (EscrowData.with_status InProgress e1).

Definition resolved_m (now : N) (winner : address) (reason : string)
    (m : Milestone.t) : Milestone.t :=
  Milestone.with_disputedBy winner
    (Milestone.with_disputeReason reason
       (Milestone.with_approvedAt now (Milestone.with_status Resolved m))).

(** The winner recorded by [resolveDispute]. *)
Definition winner_of (e : EscrowData.t) (beneficiaryAmount refundAmount : N)
    : address :=
  if bool_decide (refundAmount < beneficiaryAmount)
  then EscrowData.beneficiary e else EscrowData.depositor e.

(** [s'] differs from [s] in reputations, completion counters and the
    event log at most. *)
Definition quiet (s s' : Storage) : Prop :=
  exists rep done evs,
    s' = mkStorage (escrows s) (milestones s) (escrowedAmount s)
           (totalFeesByToken s) rep done (nextEscrowId s) (paused s)
           (entered s) (engagementRewards s) (transfers s) evs.

(** ** One step, seen from the escrow and milestone records

    [updates s s' i k E M]: read through the mappings, [s'] is [s] except
    that escrow [i] now holds [E] and its milestone [k] holds [M]. *)
Definition updates (s s' : Storage) (i k : N) (E : EscrowData.t)
    (M : Milestone.t) : Prop :=
  (forall j, escrow_at s' j = if decide (j = i) then E else escrow_at s j) /\
  (forall j l, milestone_at s' j l =
     if decide (j = i /\ l = k) then M else milestone_at s j l).

(** What every operation respects when it rewrites escrow [i] and its
    milestone [k]: totals, the milestone array and amounts stay; the
    milestone touched was submitted before or lies in the array; whatever
    is added to [paidAmount] is taken from the milestone's open amount;
    and the escrow is Released only when fully paid. *)
Definition legal (s : Storage) (i k : N) (E : EscrowData.t)
    (M : Milestone.t) : Prop :=
  let e := escrow_at s i in
  let m := milestone_at s i k in
  EscrowData.totalAmount E = EscrowData.totalAmount e /\
  EscrowData.milestoneCount E = EscrowData.milestoneCount e /\
  Milestone.amount M = Milestone.amount m /\
  (M = m \/ Milestone.status m <> NotStarted
   \/ k < EscrowData.milestoneCount e) /\
  EscrowData.paidAmount E + open_amount M
    <= EscrowData.paidAmount e + open_amount m /\
  (EscrowData.status E = Released ->
   EscrowData.paidAmount E = EscrowData.totalAmount E).

Definition transition (s s' : Storage) : Prop :=
  exists i k E M, updates s s' i k E M /\ legal s i k E M.

(** The invariant of one escrow. *)
Definition Inv (s : Storage) (escrowId : N) : Prop :=
  let e := escrow_at s escrowId in
  EscrowData.paidAmount e + unsettled_total s escrowId
    <= EscrowData.totalAmount e /\
  (forall i, Milestone.status (milestone_at s escrowId i) <> NotStarted ->
             i < EscrowData.milestoneCount e) /\
  (EscrowData.status e = Released ->
   EscrowData.paidAmount e = EscrowData.totalAmount e).

(** No milestone of the escrow waits for the depositor or an arbiter. *)
Definition none_pending (s : Storage) (escrowId : N) : Prop :=
  forall l, let st := Milestone.status (milestone_at s escrowId l) in
            st = NotStarted \/ st = Approved \/ st = Resolved.

(** The escrow is over: Released, and as the invariant and positive
    amounts make it. *)
Definition closed (s : Storage) (escrowId : N) : Prop :=
  Inv s escrowId /\ positive_amounts s escrowId = true /\
  EscrowData.status (escrow_at s escrowId) = Released.

(** ** A committed call at a glance

    The escrow and the milestone a call addresses, what the call writes
    there, what it requires, and the payments it makes. *)

Definition call_escrow (c : Call) : N :=
  match c with
  | CStartWork i | CSubmitMilestone i _ _ | CApproveMilestone i _ _ _
  | CRejectMilestone i _ _ | CResubmitMilestone i _ _
  | CDisputeMilestone i _ _ | CResolveDispute i _ _ _ => i
  end.

Definition call_index (c : Call) : N :=
  match c with
  | CStartWork _ => 0
  | CSubmitMilestone _ k _ | CApproveMilestone _ k _ _
  | CRejectMilestone _ k _ | CResubmitMilestone _ k _
  | CDisputeMilestone _ k _ | CResolveDispute _ k _ _ => k
  end.

Definition escrow_after (msg : Msg) (c : Call) (s : Storage) : EscrowData.t :=
  let e := escrow_at s (call_escrow c) in
  let m := milestone_at s (call_escrow c) (call_index c) in
  match c with
  | CStartWork _ => started e
  | CApproveMilestone _ _ _ _ => approved (Milestone.amount m) e
  | CDisputeMilestone _ _ _ => EscrowData.with_status Disputed e
  | CResolveDispute _ _ b _ => resolved b e
  | CSubmitMilestone _ _ _ | CRejectMilestone _ _ _
  | CResubmitMilestone _ _ _ => e
  end.

Definition milestone_after (msg : Msg) (c : Call) (s : Storage)
    : Milestone.t :=
  let e := escrow_at s (call_escrow c) in
  let m := milestone_at s (call_escrow c) (call_index c) in
  match c with
  | CStartWork _ => m
  | CSubmitMilestone _ _ d | CResubmitMilestone _ _ d =>
      submitted (timestamp msg) d m
  | CApproveMilestone _ _ _ _ => approved_m (timestamp msg) m
  | CRejectMilestone _ _ r => flagged Rejected msg r m
  | CDisputeMilestone _ _ r => flagged MDisputed msg r m
  | CResolveDispute _ _ b r =>
      resolved_m (timestamp msg) (winner_of e b (Milestone.amount m - b)) r m
  end.

(** The status the addressed milestone must have for the call to go on. *)
Definition required_status (c : Call) : option MilestoneStatus :=
  match c with
  | CStartWork _ => None
  | CSubmitMilestone _ _ _ => Some NotStarted
  | CApproveMilestone _ _ _ _ | CRejectMilestone _ _ _
  | CDisputeMilestone _ _ _ => Some Submitted
  | CResubmitMilestone _ _ _ => Some Rejected
  | CResolveDispute _ _ _ _ => Some MDisputed
  end.

(** The escrow status the call requires, where it requires one. *)
Definition required_escrow_status (c : Call) : option EscrowStatus :=
  match c with
  | CStartWork _ => Some Pending
  | CSubmitMilestone _ _ _ | CApproveMilestone _ _ _ _
  | CRejectMilestone _ _ _ | CResubmitMilestone _ _ _ => Some InProgress
  | CDisputeMilestone _ _ _ => None
  | CResolveDispute _ _ _ _ => Some Disputed
  end.

(** Does the call compare its index with [milestoneCount]? *)
Definition checks_index (c : Call) : bool :=
  match c with
  | CSubmitMilestone _ _ _ | CApproveMilestone _ _ _ _
  | CRejectMilestone _ _ _ | CResubmitMilestone _ _ _ => true
  | CStartWork _ | CDisputeMilestone _ _ _ | CResolveDispute _ _ _ _ => false
  end.

(** The calls to [_transferOut] of a committed call, in order. *)
Definition payments (c : Call) (s : Storage) : list Transfer :=
  let e := escrow_at s (call_escrow c) in
  let m := milestone_at s (call_escrow c) (call_index c) in
  match c with
  | CApproveMilestone _ _ _ _ =>
      [ mkTransfer (EscrowData.token e) (EscrowData.beneficiary e)
          (Milestone.amount m) ]
  | CResolveDispute _ _ b _ =>
      (if bool_decide (0 < b)
       then [ mkTransfer (EscrowData.token e) (EscrowData.beneficiary e) b ]
       else [])
      ++ (if bool_decide (0 < Milestone.amount m - b)
          then [ mkTransfer (EscrowData.token e) (EscrowData.depositor e)
                   (Milestone.amount m - b) ]
          else [])
  | _ => []
  end%list.

(** What a list of payments takes out of the custody of token [tok]. *)
Definition outflow (tok : address) (l : list Transfer) : N :=
  foldr (fun t acc => if bool_decide (tr_token t = tok)
                      then tr_amount t + acc else acc) 0 l.

(** The way a milestone status may change in one call. *)
Definition edge (st st' : MilestoneStatus) : bool :=
  match st, st' with
  | NotStarted, Submitted
  | Submitted, Approved | Submitted, Rejected | Submitted, MDisputed
  | Rejected, Submitted
  | MDisputed, Resolved => true
  | _, _ => false
  end.

(** The terms of an escrow: everything but status, paid amount and the
    work-started flag. *)
Definition same_terms (e e' : EscrowData.t) : Prop :=
  EscrowData.depositor e' = EscrowData.depositor e /\
  EscrowData.beneficiary e' = EscrowData.beneficiary e /\
  EscrowData.arbiters e' = EscrowData.arbiters e /\
  EscrowData.requiredConfirmations e' = EscrowData.requiredConfirmations e /\
  EscrowData.totalAmount e' = EscrowData.totalAmount e /\
  EscrowData.platformFee e' = EscrowData.platformFee e /\
  EscrowData.token e' = EscrowData.token e /\
  EscrowData.deadline e' = EscrowData.deadline e /\
  EscrowData.createdAt e' = EscrowData.createdAt e /\
  EscrowData.milestoneCount e' = EscrowData.milestoneCount e.

(** [s'] differs from [s] in reputations and the event log at most. *)
Definition silent (s s' : Storage) : Prop :=
  exists rep evs,
    s' = mkStorage (escrows s) (milestones s) (escrowedAmount s)
           (totalFeesByToken s) rep (completedEscrows s) (nextEscrowId s)
           (paused s) (entered s) (engagementRewards s) (transfers s) evs.

(** [completedEscrows[who] += 1], on the map. *)
Definition credited (who : address) (m : gmap address uint256)
    : gmap address uint256 :=
  <[who := counter_at m who + 1]> m.

(** The calls that reach [_transferOut]. *)
Definition pays (c : Call) : bool :=
  match c with
  | CApproveMilestone _ _ _ _ | CResolveDispute _ _ _ _ => true
  | _ => false
  end.

(** * The freelancer statistics card

    [FreelancerStats] (a React component of the web client) classifies
    the escrows of a freelancer by the status strings of the escrow and of
    its milestones, and shows the number of escrows in each class.  The
    two sums over [Number.parseFloat] are floating-point and are left
    out. *)

Module FreelancerStats.

Module Item.
Record t := mk { status : string }.
End Item.

Record Escrow := mkEscrow {
  totalAmount : string;
  releasedAmount : string;
  status : string;
  milestones : list Item.t
}.

Definition has_status (st : string) (m : Item.t) : bool :=
  bool_decide (Item.status m = st).

Definition isEscrowTerminated (escrow : Escrow) : bool :=
  existsb (fun milestone => has_status "disputed" milestone
                            || has_status "rejected" milestone)
    (milestones escrow).

(** The callback of the filter of [completedProjects]. *)
Definition isCompleted (escrow : Escrow) : bool :=
  if bool_decide (length (milestones escrow) = 0%nat) then false
  else forallb (has_status "approved") (milestones escrow).

(** The callback of the filter of [activeProjects]. *)
Definition isActive (escrow : Escrow) : bool :=
  if isEscrowTerminated escrow then false
  else if bool_decide (status escrow = "active") then true
  else if bool_decide (length (milestones escrow) = 0%nat) then false
  else
    let hasInProgressMilestones :=
      existsb (fun milestone => has_status "submitted" milestone
                                || has_status "approved" milestone
                                || has_status "pending" milestone)
        (milestones escrow) in
    let allMilestonesApproved :=
      forallb (has_status "approved") (milestones escrow) in
    hasInProgressMilestones && negb allMilestonesApproved.

(** The callback of the filter of [pendingProjects]. *)
Definition isPending (escrow : Escrow) : bool :=
  if isEscrowTerminated escrow then false
  else if bool_decide (status escrow = "pending") then true
  else if bool_decide (length (milestones escrow) = 0%nat) then false
  else forallb (has_status "pending") (milestones escrow).

Definition count (p : Escrow -> bool) (escrows : list Escrow) : nat :=
  length (List.filter p escrows).

Definition completedProjects := count isCompleted.
Definition activeProjects := count isActive.
Definition pendingProjects := count isPending.
Definition terminatedProjects := count isEscrowTerminated.

End FreelancerStats.

(** * The reward claim and the approval *)

(** The outcomes of the external call that the [try] statement handles. *)
Definition caught (o : ClaimOutcome) : bool :=
  match o with
  | ClaimReturned _ | ClaimError _ | ClaimUnknown => true
  | ClaimUncaught => false
  end.

(** The same deployment with another reward contract behind
    [engagementRewards]. *)
Definition with_appClaim
    (f : address -> address -> uint256 -> string -> ClaimOutcome)
    (env : Env) : Env :=
  mkEnv (DISPUTE_PERIOD env) (MIN_REP_ELIGIBLE_ESCROW_VALUE env)
    (REPUTATION_PER_MILESTONE env) (REPUTATION_PER_ESCROW env)
    (transferSucceeds env) f.

(** [s'] is [s] but for the event log. *)
Definition same_but_log (s s' : Storage) : Prop :=
  exists evs,
    s' = mkStorage (escrows s) (milestones s) (escrowedAmount s)
           (totalFeesByToken s) (reputation s) (completedEscrows s)
           (nextEscrowId s) (paused s) (entered s) (engagementRewards s)
           (transfers s) evs.

(** Two results that agree but for the event log: both commit, with the
    same value and storages that differ in the log at most, or both revert
    with the same failure. *)
Definition agree {A} (r1 r2 : Result (A * Storage)) : Prop :=
  match r1, r2 with
  | Ok (a1, s1), Ok (a2, s2) => a1 = a2 /\ same_but_log s1 s2
  | Revert f1, Revert f2 => f1 = f2
  | _, _ => False
  end.

(** Two transactions that agree whenever they start from storages that
    differ in the log at most. *)
Definition alike {A} (t1 t2 : Tx A) : Prop :=
  forall s1 s2, same_but_log s1 s2 -> agree (t1 s1) (t2 s2).

(** The storage [s] with the reward contract at address [a]. *)
Definition with_rewards (a : address) (s : Storage) : Storage :=
  mkStorage (escrows s) (milestones s) (escrowedAmount s)
    (totalFeesByToken s) (reputation s) (completedEscrows s)
    (nextEscrowId s) (paused s) (entered s) a (transfers s) (events s).

(** An escrow that is paid in full and no longer in progress. *)
Definition paid_up (s : Storage) (escrowId : N) : Prop :=
  let e := escrow_at s escrowId in
  EscrowData.paidAmount e = EscrowData.totalAmount e /\
  (EscrowData.status e = Released \/ EscrowData.status e = Disputed).


(** * Proofs *)

(** ** The transaction monad: when does a computation commit? *)

Section MonadFacts.
Context {A B : Type}.

Lemma bind_Ok (m : Tx A) (k : A -> Tx B) s b s' :
  bind m k s = Ok (b, s') <->
  exists a s1, m s = Ok (a, s1) /\ k a s1 = Ok (b, s').
Proof.
  unfold bind. split.
  - destruct (m s) as [[a s1]|f]; [eauto | discriminate].
  - intros (a & s1 & -> & Hk). exact Hk.
Qed.

End MonadFacts.

Lemma ret_Ok {A} (a b : A) s s' : ret a s = Ok (b, s') <-> b = a /\ s' = s.
Proof. unfold ret. split; [intros [= <- <-] | intros [-> ->]]; auto. Qed.

Lemma read_Ok {A} (g : Storage -> A) s a s' :
  read g s = Ok (a, s') <-> a = g s /\ s' = s.
Proof. unfold read. split; [intros [= <- <-] | intros [-> ->]]; auto. Qed.

Lemma write_Ok (g : Storage -> Storage) s u s' :
  write g s = Ok (u, s') <-> s' = g s.
Proof. unfold write. destruct u. split; [intros [= <-] | intros ->]; auto. Qed.

Lemma require_Ok c r s u s' :
  require c r s = Ok (u, s') <-> c = true /\ s' = s.
Proof.
  unfold require, ret, fail. destruct u, c; split.
  - intros [= <-]; auto.
  - intros [_ ->]; auto.
  - discriminate.
  - intros [[=] _].
Qed.

Lemma checked_add_Ok a b s n s' :
  checked_add a b s = Ok (n, s') <->
  a + b <= MAX_UINT256 /\ n = a + b /\ s' = s.
Proof.
  unfold checked_add, ret, fail. case_bool_decide; split.
  - intros [= <- <-]; auto.
  - intros (_ & -> & ->); auto.
  - discriminate.
  - intros (? & _); tauto.
Qed.

Lemma checked_sub_Ok a b s n s' :
  checked_sub a b s = Ok (n, s') <-> b <= a /\ n = a - b /\ s' = s.
Proof.
  unfold checked_sub, ret, fail. case_bool_decide; split.
  - intros [= <- <-]; auto.
  - intros (_ & -> & ->); auto.
  - discriminate.
  - intros (? & _); tauto.
Qed.

Lemma when_Ok c body s u s' :
  when c body s = Ok (u, s') <->
  (c = true /\ body s = Ok (u, s')) \/ (c = false /\ s' = s).
Proof.
  unfold when, ret. destruct u, c; split.
  - auto.
  - intros [[_ H] | [[=] _]]; auto.
  - intros [= <-]; auto.
  - intros [[[=] _] | [_ ->]]; auto.
Qed.

(** ** Quiet steps: reputation, completion counters, events *)

Lemma quiet_refl s : quiet s s.
Proof. destruct s. do 3 eexists. reflexivity. Qed.

Lemma quiet_trans s1 s2 s3 : quiet s1 s2 -> quiet s2 s3 -> quiet s1 s3.
Proof.
  intros (r & c & ev & ->) (r' & c' & ev' & ->). do 3 eexists. reflexivity.
Qed.

Lemma emit_quiet ev s u s' : emit ev s = Ok (u, s') -> quiet s s'.
Proof.
  unfold emit. intros H%write_Ok. subst. do 3 eexists. reflexivity.
Qed.

Lemma when_quiet c body s u s' :
  (forall s', body s = Ok (u, s') -> quiet s s') ->
  when c body s = Ok (u, s') -> quiet s s'.
Proof.
  intros Hb [[_ H] | [_ ->]]%when_Ok; [auto | apply quiet_refl].
Qed.

Lemma updateReputation_quiet user points reason s u s' :
  _updateReputation user points reason s = Ok (u, s') -> quiet s s'.
Proof.
  unfold _updateReputation, emit. intros H.
  repeat (apply bind_Ok in H; destruct H as (? & ? & ? & H); cbv beta in H).
  repeat match goal with
  | H : read _ _ = Ok _ |- _ => apply read_Ok in H; destruct H as [? ?]
  | H : write _ _ = Ok _ |- _ => apply write_Ok in H
  | H : checked_add _ _ _ = Ok _ |- _ =>
      apply checked_add_Ok in H; destruct H as (? & ? & ?)
  end; subst.
  do 3 eexists. reflexivity.
Qed.

Lemma add_completedEscrows_quiet user v s u s' :
  add_completedEscrows user v s = Ok (u, s') -> quiet s s'.
Proof.
  unfold add_completedEscrows. intros H.
  repeat (apply bind_Ok in H; destruct H as (? & ? & ? & H); cbv beta in H).
  repeat match goal with
  | H : read _ _ = Ok _ |- _ => apply read_Ok in H; destruct H as [? ?]
  | H : write _ _ = Ok _ |- _ => apply write_Ok in H
  | H : checked_add _ _ _ = Ok _ |- _ =>
      apply checked_add_Ok in H; destruct H as (? & ? & ?)
  end; subst.
  do 3 eexists. reflexivity.
Qed.

Lemma claimReward_quiet env msg v sg s u s' :
  claimReward env msg v sg s = Ok (u, s') -> quiet s s'.
Proof.
  unfold claimReward. intros H.
  apply bind_Ok in H; destruct H as (r & s1 & [-> ->]%read_Ok & H).
  revert H. apply when_quiet. intros s2.
  destruct (appClaim _ _ _ _ _).
  - apply when_quiet. intros s3. apply emit_quiet.
  - apply emit_quiet.
  - apply emit_quiet.
  - discriminate.
Qed.

(** Two reputation credits in a row, as on completion of an escrow. *)
Lemma reputation_pair_quiet c u1 p1 r1 u2 p2 r2 s u s' :
  when c (_updateReputation u1 p1 r1;; _updateReputation u2 p2 r2) s
    = Ok (u, s') ->
  quiet s s'.
Proof.
  apply when_quiet. intros s2 H.
  apply bind_Ok in H; destruct H as (? & s1 & H1 & H2).
  eapply quiet_trans; eauto using updateReputation_quiet.
Qed.

(** Storage terms are kept in normal form: a record of maps over the
    initial storage, with reads of a key just written resolved. *)
Ltac norm_in H :=
  unfold escrow_at, milestone_at, counter_at in H;
  cbn [escrows milestones escrowedAmount totalFeesByToken reputation
       completedEscrows nextEscrowId paused entered engagementRewards
       transfers events set_escrows set_milestones set_escrowedAmount
       set_totalFeesByToken set_reputation set_completedEscrows set_entered
       push_transfer push_event] in H;
  rewrite ?lookup_insert_eq, ?insert_insert_eq in H;
  cbn [default from_option id] in H.

Ltac norm :=
  unfold escrow_at, milestone_at, counter_at;
  cbn [escrows milestones escrowedAmount totalFeesByToken reputation
       completedEscrows nextEscrowId paused entered engagementRewards
       transfers events set_escrows set_milestones set_escrowedAmount
       set_totalFeesByToken set_reputation set_completedEscrows set_entered
       push_transfer push_event];
  rewrite ?lookup_insert_eq, ?insert_insert_eq;
  cbn [default from_option id].

Ltac unfold_ops H :=
  unfold startWork, submitMilestone, approveMilestone, rejectMilestone,
    resubmitMilestone, disputeMilestone, resolveDispute,
    onlyBeneficiary, onlyDepositor, onlyEscrowParticipant, validEscrow,
    nonReentrant, whenNotPaused, _transferOut,
    add_paidAmount, sub_escrowedAmount, add_totalFeesByToken,
    load_escrow, load_milestone, update_escrow, update_milestone, emit in H.

(** Backward reading of a committed transaction [H : tx s = Ok (a, s')],
    action by action; every intermediate storage is normalised before it
    is substituted. *)
Ltac tx_inv H :=
  lazymatch type of H with
  | bind _ _ _ = Ok _ =>
      let a := fresh "a" in
      let s1 := fresh "s" in
      let Hm := fresh "Hm" in
      apply bind_Ok in H; destruct H as (a & s1 & Hm & H); cbv beta in H;
      tx_inv Hm; tx_inv H
  | ret _ _ = Ok _ =>
      apply ret_Ok in H; destruct H as [? ?]; subst
  | read _ _ = Ok _ =>
      let E := fresh "E" in
      apply read_Ok in H; destruct H as [H E]; norm_in H; subst
  | write _ _ = Ok _ => apply write_Ok in H; norm_in H; subst
  | require _ _ _ = Ok _ =>
      let E := fresh "E" in
      apply require_Ok in H; destruct H as [H E]; norm_in H; subst
  | checked_add _ _ _ = Ok _ =>
      let E := fresh "E" in
      let E' := fresh "E" in
      apply checked_add_Ok in H; destruct H as (H & E & E'); subst
  | checked_sub _ _ _ = Ok _ =>
      let E := fresh "E" in
      let E' := fresh "E" in
      apply checked_sub_Ok in H; destruct H as (H & E & E'); subst
  | claimReward _ _ _ _ _ = Ok _ =>
      apply claimReward_quiet in H; destruct H as (? & ? & ? & H);
      norm_in H; subst
  | when _ (_updateReputation _ _ _) _ = Ok _ =>
      apply (when_quiet _ _ _ _ _
               (fun s' => updateReputation_quiet _ _ _ _ _ s')) in H;
      destruct H as (? & ? & ? & H); norm_in H; subst
  | when _ (bind (_updateReputation _ _ _) _) _ = Ok _ =>
      apply reputation_pair_quiet in H; destruct H as (? & ? & ? & H);
      norm_in H; subst
  | add_completedEscrows _ _ _ = Ok _ =>
      apply add_completedEscrows_quiet in H; destruct H as (? & ? & ? & H);
      norm_in H; subst
  | when _ _ _ = Ok _ =>
      let C := fresh "C" in
      apply when_Ok in H; destruct H as [[C H] | [C H]];
      [tx_inv H | subst]
  | _ => idtac
  end.

Ltac props :=
  repeat match goal with
  | H : bool_decide _ = true |- _ => apply bool_decide_eq_true_1 in H
  | H : bool_decide _ = false |- _ => apply bool_decide_eq_false_1 in H
  | H : negb _ = true |- _ => apply negb_true_iff in H
  | H : negb _ = false |- _ => apply negb_false_iff in H
  end.

Lemma callable_intro s i :
  i < nextEscrowId s -> paused s = false -> entered s = false ->
  callable s i = true.
Proof.
  intros H1 H2 H3. unfold callable. rewrite H2, H3.
  rewrite bool_decide_eq_true_2 by assumption. reflexivity.
Qed.

Lemma callable_elim s i :
  callable s i = true ->
  i < nextEscrowId s /\ paused s = false /\ entered s = false.
Proof.
  unfold callable. intros H.
  apply andb_prop in H as [H H3]. apply andb_prop in H as [H1 H2].
  props. auto.
Qed.

(** Resolve the tests whose outcome is among the hypotheses. *)
Ltac decide_hyps :=
  repeat match goal with
  | H : ?P |- context [bool_decide ?P] =>
      rewrite (bool_decide_eq_true_2 P H)
  | H : ¬ ?P |- context [bool_decide ?P] =>
      rewrite (bool_decide_eq_false_2 P H)
  end.

(** ** What each committed operation did *)

Ltac effect_tac H :=
  unfold_ops H; tx_inv H; props; norm;
  repeat split; auto using callable_intro.

Lemma startWork_effect msg i s s' :
  startWork msg i s = Ok (tt, s') ->
  let e := escrow_at s i in
  sender msg = EscrowData.beneficiary e /\
  callable s i = true /\
  EscrowData.status e = Pending /\
  EscrowData.workStarted e = false /\
  escrows s' = <[i := started e]> (escrows s) /\
  milestones s' = milestones s.
Proof. intros H. effect_tac H. Qed.

(** What [startWork] records as owed to the platform, and that it leaves
    the contract callable. *)
Lemma startWork_fees msg i s s' :
  startWork msg i s = Ok (tt, s') ->
  let e := escrow_at s i in
  callable s' i = true /\
  totalFeesByToken s' =
    (if bool_decide (0 < EscrowData.platformFee e)
     then <[EscrowData.token e :=
              counter_at (totalFeesByToken s) (EscrowData.token e)
              + EscrowData.platformFee e]> (totalFeesByToken s)
     else totalFeesByToken s).
Proof.
  intros H. unfold_ops H; tx_inv H; props; norm.
  all: split; [apply callable_intro; norm; auto | decide_hyps; reflexivity].
Qed.

(** No other operation touches the fee counters. *)
Lemma fees_kept env msg c s s' :
  (forall i, c <> CStartWork i) ->
  dispatch env msg c s = Ok (tt, s') ->
  totalFeesByToken s' = totalFeesByToken s.
Proof.
  intros Hc H. destruct c; simpl in H;
    [by destruct (Hc escrowId) | ..];
    unfold_ops H; tx_inv H; reflexivity.
Qed.

Lemma submitMilestone_effect msg i k d s s' :
  submitMilestone msg i k d s = Ok (tt, s') ->
  let e := escrow_at s i in
  let m := milestone_at s i k in
  sender msg = EscrowData.beneficiary e /\
  callable s i = true /\
  EscrowData.status e = InProgress /\
  k < EscrowData.milestoneCount e /\
  Milestone.status m = NotStarted /\
  escrows s' = escrows s /\
  milestones s' = <[(i, k) := submitted (timestamp msg) d m]> (milestones s).
Proof.
  intros H. effect_tac H.
  all: unfold submitted; norm.
  all: decide_hyps; reflexivity.
Qed.


Lemma approveMilestone_effect env msg i k v sg s s' :
  approveMilestone env msg i k v sg s = Ok (tt, s') ->
  let e := escrow_at s i in
  let m := milestone_at s i k in
  sender msg = EscrowData.depositor e /\
  callable s i = true /\
  EscrowData.status e = InProgress /\
  k < EscrowData.milestoneCount e /\
  Milestone.status m = Submitted /\
  escrows s' = <[i := approved (Milestone.amount m) e]> (escrows s) /\
  milestones s' = <[(i, k) := approved_m (timestamp msg) m]> (milestones s).
Proof.
  intros H. effect_tac H.
  all: unfold approved, settle; norm.
  all: decide_hyps; reflexivity.
Qed.

Lemma rejectMilestone_effect msg i k r s s' :
  rejectMilestone msg i k r s = Ok (tt, s') ->
  let e := escrow_at s i in
  let m := milestone_at s i k in
  sender msg = EscrowData.depositor e /\
  callable s i = true /\
  EscrowData.status e = InProgress /\
  k < EscrowData.milestoneCount e /\
  Milestone.status m = Submitted /\
  escrows s' = escrows s /\
  milestones s' = <[(i, k) := flagged Rejected msg r m]> (milestones s).
Proof. intros H. effect_tac H. Qed.

Lemma resubmitMilestone_effect msg i k d s s' :
  resubmitMilestone msg i k d s = Ok (tt, s') ->
  let e := escrow_at s i in
  let m := milestone_at s i k in
  sender msg = EscrowData.beneficiary e /\
  callable s i = true /\
  EscrowData.status e = InProgress /\
  k < EscrowData.milestoneCount e /\
  Milestone.status m = Rejected /\
  escrows s' = escrows s /\
  milestones s' = <[(i, k) := submitted (timestamp msg) d m]> (milestones s).
Proof.
  intros H. effect_tac H.
  all: unfold submitted; norm.
  all: decide_hyps; reflexivity.
Qed.

Lemma disputeMilestone_effect env msg i k r s s' :
  disputeMilestone env msg i k r s = Ok (tt, s') ->
  let e := escrow_at s i in
  let m := milestone_at s i k in
  sender msg = EscrowData.depositor e /\
  callable s i = true /\
  Milestone.status m = Submitted /\
  Milestone.submittedAt m + DISPUTE_PERIOD env <= MAX_UINT256 /\
  timestamp msg <= Milestone.submittedAt m + DISPUTE_PERIOD env /\
  escrows s' = <[i := EscrowData.with_status Disputed e]> (escrows s) /\
  milestones s' = <[(i, k) := flagged MDisputed msg r m]> (milestones s).
Proof. intros H. effect_tac H. Qed.

Lemma resolveDispute_effect env msg i k b r s s' :
  resolveDispute env msg i k b r s = Ok (tt, s') ->
  let e := escrow_at s i in
  let m := milestone_at s i k in
  (sender msg = EscrowData.depositor e \/
   sender msg = EscrowData.beneficiary e \/
   sender msg ∈ EscrowData.arbiters e) /\
  callable s i = true /\
  EscrowData.status e = Disputed /\
  Milestone.status m = MDisputed /\
  b <= Milestone.amount m /\
  escrows s' = <[i := resolved b e]> (escrows s) /\
  milestones s' =
    <[(i, k) := resolved_m (timestamp msg)
                  (winner_of e b (Milestone.amount m - b)) r m]>
      (milestones s).
Proof.
  intros H. effect_tac H.
  all: try (apply orb_prop in Hm as [Hm | Hm];
            [apply orb_prop in Hm as [Hm | Hm] |]; props; tauto).
  all: unfold resolved, settle; norm.
  all: decide_hyps; reflexivity.
Qed.

(** ** Sums over the milestone array *)

Lemma sum_upto_ext f g n :
  (forall i, (i < n)%nat -> f (N.of_nat i) = g (N.of_nat i)) ->
  sum_upto f n = sum_upto g n.
Proof.
  induction n as [|n IH]; intros H; simpl; [reflexivity|].
  rewrite IH by (intros; apply H; lia). rewrite H by lia. reflexivity.
Qed.

Lemma sum_upto_update f g n j :
  (j < n)%nat ->
  (forall i, (i < n)%nat -> i <> j -> g (N.of_nat i) = f (N.of_nat i)) ->
  sum_upto g n + f (N.of_nat j) = sum_upto f n + g (N.of_nat j).
Proof.
  induction n as [|n IH]; intros Hj H; simpl; [lia|].
  destruct (decide (j = n)) as [->|Hne].
  - rewrite (sum_upto_ext g f) by (intros; apply H; lia). lia.
  - rewrite (H n) by lia.
    specialize (IH ltac:(lia) ltac:(intros; apply H; lia)). lia.
Qed.

Lemma sum_upto_zero f n i :
  sum_upto f n = 0 -> (i < n)%nat -> f (N.of_nat i) = 0.
Proof.
  induction n as [|n IH]; intros H Hi; simpl in H; [lia|].
  destruct (decide (i = n)) as [->|Hne]; [lia|].
  apply IH; lia.
Qed.

Lemma elem_of_indices n i : i ∈ indices n <-> i < n.
Proof.
  unfold indices. rewrite list_elem_of_fmap. split.
  - intros (j & -> & Hj). apply elem_of_seq in Hj. lia.
  - intros Hi. exists (N.to_nat i). split; [lia|].
    apply elem_of_seq. lia.
Qed.

(** ** From the maps to the records read through them *)

Lemma updates_both s s' i k E M :
  escrows s' = <[i := E]> (escrows s) ->
  milestones s' = <[(i, k) := M]> (milestones s) ->
  updates s s' i k E M.
Proof.
  intros He Hm. split.
  - intros j. unfold escrow_at. rewrite He.
    destruct (decide (j = i)) as [->|Hne].
    + rewrite lookup_insert_eq. reflexivity.
    + rewrite lookup_insert_ne by congruence. reflexivity.
  - intros j l. unfold milestone_at. rewrite Hm.
    destruct (decide (j = i /\ l = k)) as [[-> ->]|Hne].
    + rewrite lookup_insert_eq. reflexivity.
    + rewrite lookup_insert_ne; [reflexivity|]. intros [= <- <-]. tauto.
Qed.

Lemma updates_escrow s s' i k E :
  escrows s' = <[i := E]> (escrows s) ->
  milestones s' = milestones s ->
  updates s s' i k E (milestone_at s i k).
Proof.
  intros He Hm. split.
  - intros j. unfold escrow_at. rewrite He.
    destruct (decide (j = i)) as [->|Hne].
    + rewrite lookup_insert_eq. reflexivity.
    + rewrite lookup_insert_ne by congruence. reflexivity.
  - intros j l. unfold milestone_at. rewrite Hm.
    destruct (decide (j = i /\ l = k)) as [[-> ->]|Hne]; reflexivity.
Qed.

Lemma updates_milestone s s' i k M :
  escrows s' = escrows s ->
  milestones s' = <[(i, k) := M]> (milestones s) ->
  updates s s' i k (escrow_at s i) M.
Proof.
  intros He Hm. split.
  - intros j. unfold escrow_at. rewrite He.
    destruct (decide (j = i)) as [->|Hne]; reflexivity.
  - intros j l. unfold milestone_at. rewrite Hm.
    destruct (decide (j = i /\ l = k)) as [[-> ->]|Hne].
    + rewrite lookup_insert_eq. reflexivity.
    + rewrite lookup_insert_ne; [reflexivity|]. intros [= <- <-]. tauto.
Qed.

(** ** Every committed call is a legal transition *)

Lemma settle_paid e :
  EscrowData.paidAmount (settle e) = EscrowData.paidAmount e.
Proof. unfold settle. case_bool_decide; reflexivity. Qed.

Lemma settle_total e :
  EscrowData.totalAmount (settle e) = EscrowData.totalAmount e.
Proof. unfold settle. case_bool_decide; reflexivity. Qed.

Lemma settle_count e :
  EscrowData.milestoneCount (settle e) = EscrowData.milestoneCount e.
Proof. unfold settle. case_bool_decide; reflexivity. Qed.

Lemma settle_released e :
  EscrowData.status (settle e) = Released ->
  EscrowData.status e = Released \/
  EscrowData.paidAmount e = EscrowData.totalAmount e.
Proof. unfold settle. case_bool_decide; auto. Qed.

Lemma submitted_status now d m :
  Milestone.status (submitted now d m) = Submitted.
Proof. unfold submitted. case_bool_decide; reflexivity. Qed.

Lemma submitted_amount now d m :
  Milestone.amount (submitted now d m) = Milestone.amount m.
Proof. unfold submitted. case_bool_decide; reflexivity. Qed.

Lemma open_amount_eq m m' :
  Milestone.amount m' = Milestone.amount m ->
  settled (Milestone.status m') = settled (Milestone.status m) ->
  open_amount m' = open_amount m.
Proof. unfold open_amount. intros -> ->. reflexivity. Qed.

(** The open amount after a rewrite of the milestone, case by case. *)
Ltac open_amounts Hms :=
  unfold open_amount, submitted; rewrite ?Hms;
  repeat case_bool_decide; cbn; rewrite ?Hms; cbn; lia.

Lemma step_transition env msg c s s' :
  dispatch env msg c s = Ok (tt, s') -> transition s s'.
Proof.
  destruct c as [i|i k d|i k v sg|i k r|i k d|i k r|i k b r]; simpl; intros H.
  - apply startWork_effect in H as (_ & _ & Hst & _ & He & Hm).
    exists i, 0, (started (escrow_at s i)), (milestone_at s i 0).
    split; [by apply updates_escrow|].
    unfold legal; cbn. repeat split; auto. intros [=].
  - apply submitMilestone_effect in H as (_ & _ & Hst & Hk & Hms & He & Hm).
    eexists i, k, _, _. split; [by apply updates_milestone|].
    unfold legal. rewrite submitted_amount, Hst. repeat split; auto.
    + open_amounts Hms.
    + intros [=].
  - apply approveMilestone_effect in H as (_ & _ & Hst & Hk & Hms & He & Hm).
    eexists i, k, _, _. split; [by apply updates_both|].
    unfold legal, approved. rewrite settle_paid, settle_total, settle_count.
    repeat split; auto.
    + open_amounts Hms.
    + intros Hr. apply settle_released in Hr as [Hr|Hr]; [|assumption].
      cbn in Hr. rewrite Hst in Hr. discriminate.
  - apply rejectMilestone_effect in H as (_ & _ & Hst & Hk & Hms & He & Hm).
    eexists i, k, _, _. split; [by apply updates_milestone|].
    unfold legal. rewrite Hst. repeat split; auto.
    + open_amounts Hms.
    + intros [=].
  - apply resubmitMilestone_effect in H as (_ & _ & Hst & Hk & Hms & He & Hm).
    eexists i, k, _, _. split; [by apply updates_milestone|].
    unfold legal. rewrite submitted_amount, Hst. repeat split; auto.
    + open_amounts Hms.
    + intros [=].
  - apply disputeMilestone_effect in H as (_ & _ & Hms & _ & _ & He & Hm).
    eexists i, k, _, _. split; [by apply updates_both|].
    unfold legal. repeat split; auto.
    + right; left. rewrite Hms. discriminate.
    + open_amounts Hms.
    + intros [=].
  - apply resolveDispute_effect in H as (_ & _ & Hst & Hms & Hb & He & Hm).
    eexists i, k, _, _. split; [by apply updates_both|].
    unfold legal, resolved. rewrite settle_paid, settle_total, settle_count.
    repeat split; auto.
    + case_bool_decide; reflexivity.
    + case_bool_decide; reflexivity.
    + right; left. rewrite Hms. discriminate.
    + open_amounts Hms.
    + intros Hr. apply settle_released in Hr as [Hr|Hr]; [|assumption].
      cbn in Hr. discriminate.
Qed.

(** ** Transitions keep the totals and the invariant *)

Lemma sum_milestones_ext f s s' i :
  EscrowData.milestoneCount (escrow_at s' i)
    = EscrowData.milestoneCount (escrow_at s i) ->
  (forall l, l < EscrowData.milestoneCount (escrow_at s i) ->
     f (milestone_at s' i l) = f (milestone_at s i l)) ->
  sum_milestones f s' i = sum_milestones f s i.
Proof.
  intros Hc H. unfold sum_milestones. rewrite Hc.
  apply sum_upto_ext. intros l Hl. apply H. lia.
Qed.

Lemma sum_milestones_update f s s' i k :
  EscrowData.milestoneCount (escrow_at s' i)
    = EscrowData.milestoneCount (escrow_at s i) ->
  k < EscrowData.milestoneCount (escrow_at s i) ->
  (forall l, l <> k -> milestone_at s' i l = milestone_at s i l) ->
  sum_milestones f s' i + f (milestone_at s i k)
    = sum_milestones f s i + f (milestone_at s' i k).
Proof.
  intros Hc Hk H. unfold sum_milestones. rewrite Hc.
  pose proof (sum_upto_update
    (fun l => f (milestone_at s i l)) (fun l => f (milestone_at s' i l))
    (N.to_nat (EscrowData.milestoneCount (escrow_at s i))) (N.to_nat k)) as U.
  cbv beta in U. rewrite N2Nat.id in U. apply U; [lia|].
  intros l Hl Hne. rewrite H; [reflexivity | lia].
Qed.

Lemma transition_static s s' :
  transition s s' ->
  forall j,
    EscrowData.totalAmount (escrow_at s' j)
      = EscrowData.totalAmount (escrow_at s j) /\
    EscrowData.milestoneCount (escrow_at s' j)
      = EscrowData.milestoneCount (escrow_at s j) /\
    forall l, Milestone.amount (milestone_at s' j l)
                = Milestone.amount (milestone_at s j l).
Proof.
  intros (i & k & E & M & [He Hm] & (Ht & Hc & Ha & _)) j.
  rewrite He. destruct (decide (j = i)) as [->|Hne].
  - repeat split; auto. intros l. rewrite Hm.
    destruct (decide (i = i /\ l = k)) as [[_ ->]|]; auto.
  - repeat split; auto. intros l. rewrite Hm.
    destruct (decide (j = i /\ l = k)) as [[-> _]|]; [done | auto].
Qed.

Lemma transition_total s s' j :
  transition s s' -> milestone_total s' j = milestone_total s j.
Proof.
  intros T. destruct (transition_static s s' T j) as (_ & Hc & Ha).
  apply sum_milestones_ext; auto.
Qed.

Lemma transition_inv s s' j : Inv s j -> transition s s' -> Inv s' j.
Proof.
  intros (I1 & I2 & I3) (i & k & E & M & [He Hm] & L).
  destruct L as (Ht & Hc & Ha & Hk & Hp & Hr).
  unfold Inv. rewrite He.
  destruct (decide (j = i)) as [->|Hne].
  - assert (Hin : M = milestone_at s i k
                  \/ k < EscrowData.milestoneCount (escrow_at s i)).
    { destruct Hk as [?|[?|?]]; auto. }
    split; [|split].
    + destruct Hin as [HM | Hlt].
      * assert (unsettled_total s' i = unsettled_total s i) as ->.
        { apply sum_milestones_ext; [rewrite He, decide_True; auto|].
          intros l _. rewrite Hm.
          destruct (decide (i = i /\ l = k)) as [[_ ->]|]; congruence. }
        rewrite HM in Hp. lia.
      * assert (unsettled_total s' i + open_amount (milestone_at s i k)
                = unsettled_total s i + open_amount M) as U.
        { unfold unsettled_total.
          rewrite (sum_milestones_update open_amount s s' i k).
          - rewrite Hm, decide_True; auto.
          - rewrite He, decide_True; auto.
          - assumption.
          - intros l Hl. rewrite Hm, decide_False; [reflexivity | tauto]. }
        lia.
    + intros l. rewrite Hm, Hc.
      destruct (decide (i = i /\ l = k)) as [[_ ->]|]; [|apply I2].
      intros HM. destruct Hin as [->|?]; auto.
    + exact Hr.
  - assert (unsettled_total s' j = unsettled_total s j) as ->.
    { apply sum_milestones_ext; [rewrite He, decide_False; auto|].
      intros l _. rewrite Hm, decide_False; [reflexivity | tauto]. }
    split; [assumption | split; [|assumption]].
    intros l. rewrite Hm, decide_False; [apply I2 | tauto].
Qed.

(** ** Runs *)

Lemma commit_cases tx s :
  (exists f, tx s = Revert f /\ commit tx s = s) \/
  tx s = Ok (tt, commit tx s).
Proof.
  unfold commit. destruct (tx s) as [[[] s']|f]; eauto.
Qed.

Lemma step_cases env s mc :
  step env s mc = s \/ transition s (step env s mc).
Proof.
  unfold step.
  destruct (commit_cases (dispatch env mc.1 mc.2) s) as [(f & _ & ->)|H].
  - by left.
  - right. eapply step_transition, H.
Qed.

Lemma run_snoc env cs mc s :
  run env (cs ++ [mc]) s = step env (run env cs s) mc.
Proof. unfold run. rewrite fold_left_app. reflexivity. Qed.

Lemma run_app env cs1 cs2 s :
  run env (cs1 ++ cs2) s = run env cs2 (run env cs1 s).
Proof. unfold run. apply fold_left_app. Qed.

(** Induction over the states of a run, last call first. *)
Lemma run_ind env (P : Storage -> Prop) s :
  P s ->
  (forall s1 s2, P s1 -> transition s1 s2 -> P s2) ->
  forall cs, P (run env cs s).
Proof.
  intros H0 Hstep cs. induction cs as [|mc cs IH] using rev_ind.
  - exact H0.
  - rewrite run_snoc. destruct (step_cases env (run env cs s) mc) as [->|T].
    + exact IH.
    + eapply Hstep; eauto.
Qed.

Lemma run_inv env cs s j : Inv s j -> Inv (run env cs s) j.
Proof.
  intros H. apply run_ind; [exact H|].
  intros s1 s2 I T. eapply transition_inv; eauto.
Qed.

Lemma run_static env cs s j :
  EscrowData.totalAmount (escrow_at (run env cs s) j)
    = EscrowData.totalAmount (escrow_at s j) /\
  EscrowData.milestoneCount (escrow_at (run env cs s) j)
    = EscrowData.milestoneCount (escrow_at s j) /\
  (forall l, Milestone.amount (milestone_at (run env cs s) j l)
             = Milestone.amount (milestone_at s j l)) /\
  milestone_total (run env cs s) j = milestone_total s j.
Proof.
  apply (run_ind env (fun s' =>
    EscrowData.totalAmount (escrow_at s' j)
      = EscrowData.totalAmount (escrow_at s j) /\
    EscrowData.milestoneCount (escrow_at s' j)
      = EscrowData.milestoneCount (escrow_at s j) /\
    (forall l, Milestone.amount (milestone_at s' j l)
               = Milestone.amount (milestone_at s j l)) /\
    milestone_total s' j = milestone_total s j)).
  - auto.
  - intros s1 s2 (H1 & H2 & H3 & H4) T.
    destruct (transition_static s1 s2 T j) as (T1 & T2 & T3).
    rewrite T1, T2, (transition_total s1 s2 j T).
    repeat split; auto. intros l. rewrite T3. apply H3.
Qed.

(** ** A fresh escrow *)

Lemma fresh_elim s j :
  fresh s j = true ->
  let e := escrow_at s j in
  EscrowData.status e = Pending /\
  EscrowData.workStarted e = false /\
  EscrowData.paidAmount e = 0 /\
  milestone_total s j = EscrowData.totalAmount e /\
  forall l, Milestone.status (milestone_at s j l) = NotStarted.
Proof.
  unfold fresh. intros H.
  apply andb_prop in H as [H F]. repeat (apply andb_prop in H as [H ?]).
  props. repeat split; auto.
  intros l. unfold milestone_at.
  destruct (milestones s !! (j, l)) as [m|] eqn:E; [|reflexivity]. cbn.
  rewrite forallb_forall in F. specialize (F ((j, l), m)). cbn in F.
  assert (In ((j, l), m) (map_to_list (milestones s))) as Hin
    by apply list_elem_of_In, elem_of_map_to_list, E.
  apply F in Hin. apply orb_prop in Hin as [Hin|Hin]; props; congruence.
Qed.

Lemma fresh_inv s j : fresh s j = true -> Inv s j.
Proof.
  intros (Hst & _ & Hp & Ht & Hm)%fresh_elim. unfold Inv.
  split; [|split].
  - rewrite Hp, <- Ht. unfold unsettled_total, milestone_total.
    assert (sum_milestones open_amount s j
            = sum_milestones Milestone.amount s j) as ->; [|lia].
    unfold sum_milestones. apply sum_upto_ext. intros l _.
    unfold open_amount. rewrite Hm. reflexivity.
  - intros l Hl. destruct Hl. apply Hm.
  - rewrite Hst. intros [=].
Qed.

(** ** Forward execution

    One action of a transaction at a time, from the front. *)

Section Forward.
Context {A B : Type}.

Lemma bind_assoc {C} (m : Tx A) (k1 : A -> Tx B) (k2 : B -> Tx C) s :
  bind (bind m k1) k2 s = bind m (fun a => bind (k1 a) k2) s.
Proof. unfold bind. destruct (m s) as [[a s1]|f]; reflexivity. Qed.

Lemma bind_ret (a : A) (k : A -> Tx B) s : bind (ret a) k s = k a s.
Proof. reflexivity. Qed.

Lemma bind_read (g : Storage -> A) (k : A -> Tx B) s :
  bind (read g) k s = k (g s) s.
Proof. reflexivity. Qed.

Lemma bind_write (g : Storage -> Storage) (k : unit -> Tx B) s :
  bind (write g) k s = k tt (g s).
Proof. reflexivity. Qed.

Lemma bind_require_true c r (k : unit -> Tx B) s :
  c = true -> bind (require c r) k s = k tt s.
Proof. intros ->. reflexivity. Qed.

Lemma bind_require_false c r (k : unit -> Tx B) s :
  c = false -> bind (require c r) k s = Revert (Error r).
Proof. intros ->. reflexivity. Qed.

Lemma bind_when_true c body (k : unit -> Tx B) s :
  c = true -> bind (when c body) k s = bind body k s.
Proof. intros ->. reflexivity. Qed.

Lemma bind_when_false c body (k : unit -> Tx B) s :
  c = false -> bind (when c body) k s = k tt s.
Proof. intros ->. reflexivity. Qed.

Lemma bind_checked_add a b (k : N -> Tx B) s :
  a + b <= MAX_UINT256 -> bind (checked_add a b) k s = k (a + b) s.
Proof.
  intros H. unfold bind, checked_add.
  rewrite bool_decide_eq_true_2 by assumption. reflexivity.
Qed.

Lemma bind_checked_sub a b (k : N -> Tx B) s :
  b <= a -> bind (checked_sub a b) k s = k (a - b) s.
Proof.
  intros H. unfold bind, checked_sub.
  rewrite bool_decide_eq_true_2 by assumption. reflexivity.
Qed.
End Forward.

Ltac side :=
  first
  [ assumption
  | reflexivity
  | apply bool_decide_eq_true_2; first [assumption | lia | congruence]
  | apply bool_decide_eq_false_2; first [assumption | lia | congruence]
  | apply negb_true_iff; first [assumption | reflexivity]
  | apply negb_false_iff; first [assumption | reflexivity]
  | lia ].

Ltac tx_fwd1 :=
  lazymatch goal with
  | |- bind (bind _ _) _ _ = _ => rewrite bind_assoc
  | |- bind (ret _) _ _ = _ => rewrite bind_ret
  | |- bind (read _) _ _ = _ => rewrite bind_read; norm
  | |- bind (write _) _ _ = _ => rewrite bind_write; norm
  | |- bind (require ?c _) _ _ = _ =>
      first [ rewrite (bind_require_true c) by side
            | rewrite (bind_require_false c) by side ]
  | |- bind (when ?c _) _ _ = _ =>
      first [ rewrite (bind_when_true c) by side
            | rewrite (bind_when_false c) by side ]
  | |- bind (checked_add _ _) _ _ = _ => rewrite bind_checked_add by side
  | |- bind (checked_sub _ _) _ _ = _ => rewrite bind_checked_sub by side
  end.

Ltac unfold_ops_goal :=
  unfold startWork, submitMilestone, approveMilestone, rejectMilestone,
    resubmitMilestone, disputeMilestone, resolveDispute,
    onlyBeneficiary, onlyDepositor, onlyEscrowParticipant, validEscrow,
    nonReentrant, whenNotPaused, _transferOut,
    add_paidAmount, sub_escrowedAmount, add_totalFeesByToken,
    load_escrow, load_milestone, update_escrow, update_milestone, emit.

(** Run the operation in the goal as far as the hypotheses decide it. *)
Ltac tx_fwd :=
  unfold escrow_at, milestone_at, counter_at in *;
  unfold_ops_goal; repeat tx_fwd1.


(** * The claims *)

Lemma startWork_commits msg i s :
  let e := escrow_at s i in
  callable s i = true ->
  counter_at (totalFeesByToken s) (EscrowData.token e)
    + EscrowData.platformFee e <= MAX_UINT256 ->
  sender msg = EscrowData.beneficiary e ->
  EscrowData.status e = Pending ->
  EscrowData.workStarted e = false ->
  exists s', startWork msg i s = Ok (tt, s').
Proof.
  intros e (Hv & Hp & Hg)%callable_elim Hfee Hs Hst Hw. subst e.
  destruct (decide (0 < EscrowData.platformFee (escrow_at s i)));
    eexists; tx_fwd; reflexivity.
Qed.

(** C9. With the contract callable for the escrow and the fee counter not
    about to overflow, [startWork] commits exactly when the caller is the
    beneficiary, the escrow is Pending and work has not started.  A
    committed call sets [workStarted] and makes the escrow InProgress, adds
    the platform fee to [totalFeesByToken] of the escrow's token (nothing
    when the fee is zero), and a second call by the beneficiary reverts
    with "Invalid status" (the spec's InvalidState).  None of the other six
    operations changes [totalFeesByToken]. *)
Theorem C9_startWork msg i s :
  let e := escrow_at s i in
  callable s i = true ->
  counter_at (totalFeesByToken s) (EscrowData.token e)
    + EscrowData.platformFee e <= MAX_UINT256 ->
  ((exists s', startWork msg i s = Ok (tt, s')) <->
   sender msg = EscrowData.beneficiary e /\
   EscrowData.status e = Pending /\
   EscrowData.workStarted e = false) /\
  (forall s', startWork msg i s = Ok (tt, s') ->
     EscrowData.workStarted (escrow_at s' i) = true /\
     EscrowData.status (escrow_at s' i) = InProgress /\
     counter_at (totalFeesByToken s') (EscrowData.token e)
       = counter_at (totalFeesByToken s) (EscrowData.token e)
         + EscrowData.platformFee e /\
     (EscrowData.platformFee e = 0 ->
      totalFeesByToken s' = totalFeesByToken s) /\
     (forall msg', sender msg' = sender msg ->
        startWork msg' i s' = Revert (Error "Invalid status"))) /\
  (forall env msg' c s',
     (forall j, c <> CStartWork j) ->
     dispatch env msg' c s = Ok (tt, s') ->
     totalFeesByToken s' = totalFeesByToken s).
Proof.
  intros e Hc Hfee. split; [split|split].
  - intros (s' & H). apply startWork_effect in H. tauto.
  - intros (Hs & Hst & Hw). by apply startWork_commits.
  - intros s' H.
    pose proof (startWork_fees _ _ _ _ H) as (Hc' & Hf).
    apply startWork_effect in H as (Hs & _ & Hst & Hw & He & Hm).
    fold e in Hf, Hs, Hst, Hw, He.
    assert (escrow_at s' i = started e) as E'.
    { unfold escrow_at at 1. rewrite He, lookup_insert_eq. reflexivity. }
    rewrite E'. repeat split.
    + rewrite Hf. unfold counter_at. case_bool_decide.
      * rewrite lookup_insert_eq. reflexivity.
      * assert (EscrowData.platformFee e = 0) as -> by lia. cbn. lia.
    + intros Hz. rewrite Hf, bool_decide_eq_false_2; [reflexivity | lia].
    + intros msg' Hsame. apply callable_elim in Hc' as (Hv & Hp & Hg).
      assert (sender msg' = EscrowData.beneficiary (escrow_at s' i)) as Hs'
        by (rewrite E', Hsame; exact Hs).
      assert (EscrowData.status (escrow_at s' i) <> Pending) as Hst'
        by (rewrite E'; discriminate).
      clear - Hv Hp Hg Hs' Hst'. tx_fwd. reflexivity.
  - intros env msg' c s'. apply fees_kept.
Qed.

Lemma submitted_description now d m :
  Milestone.description (submitted now d m)
    = (if decide (d = "") then Milestone.description m else d) /\
  Milestone.submittedAt (submitted now d m) = now.
Proof.
  unfold submitted. destruct d as [|c d]; cbn [String.length].
  - rewrite bool_decide_eq_false_2 by lia. auto.
  - rewrite bool_decide_eq_true_2 by lia. auto.
Qed.

Lemma submitMilestone_commits msg i k d s :
  let e := escrow_at s i in
  callable s i = true ->
  sender msg = EscrowData.beneficiary e ->
  EscrowData.status e = InProgress ->
  k < EscrowData.milestoneCount e ->
  Milestone.status (milestone_at s i k) = NotStarted ->
  exists s', submitMilestone msg i k d s = Ok (tt, s').
Proof.
  intros e (Hv & Hp & Hg)%callable_elim Hs Hst Hk Hm. subst e.
  destruct d as [|c d]; eexists; tx_fwd; cbn [String.length];
    tx_fwd; reflexivity.
Qed.

Lemma resubmitMilestone_commits msg i k d s :
  let e := escrow_at s i in
  callable s i = true ->
  sender msg = EscrowData.beneficiary e ->
  EscrowData.status e = InProgress ->
  k < EscrowData.milestoneCount e ->
  Milestone.status (milestone_at s i k) = Rejected ->
  exists s', resubmitMilestone msg i k d s = Ok (tt, s').
Proof.
  intros e (Hv & Hp & Hg)%callable_elim Hs Hst Hk Hm. subst e.
  destruct d as [|c d]; eexists; tx_fwd; cbn [String.length];
    tx_fwd; reflexivity.
Qed.

(** C10. On an InProgress escrow, [submitMilestone] on a NotStarted
    milestone and [resubmitMilestone] on a Rejected one, called by the
    beneficiary with an index inside the milestone array, commit; the
    milestone keeps its stored description when the description passed is
    empty and takes the one passed otherwise, and in both cases
    [submittedAt] is the time of the call and the status is Submitted. *)
Theorem C10_description_overwrite msg i k d s :
  let e := escrow_at s i in
  let m := milestone_at s i k in
  callable s i = true ->
  sender msg = EscrowData.beneficiary e ->
  EscrowData.status e = InProgress ->
  k < EscrowData.milestoneCount e ->
  let after (m' : Milestone.t) :=
    (d = "" -> Milestone.description m' = Milestone.description m) /\
    (d <> "" -> Milestone.description m' = d) /\
    Milestone.submittedAt m' = timestamp msg /\
    Milestone.status m' = Submitted in
  (Milestone.status m = NotStarted ->
   exists s', submitMilestone msg i k d s = Ok (tt, s')
              /\ after (milestone_at s' i k)) /\
  (Milestone.status m = Rejected ->
   exists s', resubmitMilestone msg i k d s = Ok (tt, s')
              /\ after (milestone_at s' i k)).
Proof.
  intros e m Hc Hs Hst Hk after.
  assert (forall s', milestones s'
            = <[(i, k) := submitted (timestamp msg) d m]> (milestones s) ->
          after (milestone_at s' i k)) as Hafter.
  { intros s' Hm'. unfold milestone_at at 1.
    rewrite Hm', lookup_insert_eq. cbn [default from_option id].
    destruct (submitted_description (timestamp msg) d m) as [Hd Ht].
    unfold after. rewrite Hd, Ht, submitted_status.
    repeat split; intros; case_decide; congruence. }
  split; intros Hm.
  - destruct (submitMilestone_commits msg i k d s) as [s' H]; auto.
    exists s'. split; [exact H|].
    apply submitMilestone_effect in H. apply Hafter, H.
  - destruct (resubmitMilestone_commits msg i k d s) as [s' H]; auto.
    exists s'. split; [exact H|].
    apply resubmitMilestone_effect in H. apply Hafter, H.
Qed.

Lemma commit_revert tx s f : tx s = Revert f -> commit tx s = s.
Proof. unfold commit. intros ->. reflexivity. Qed.

(** C7. A Submitted milestone, the depositor calling, the contract
    callable, and timestamps that fit in a uint256: [disputeMilestone] at
    time [submittedAt + DISPUTE_PERIOD] commits and leaves milestone and
    escrow Disputed; at [submittedAt + DISPUTE_PERIOD + 1] it reverts with
    "Dispute period expired" (the spec's WindowExpired) and the storage is
    what it was. *)
Theorem C7_dispute_window env msg i k r s :
  let e := escrow_at s i in
  let m := milestone_at s i k in
  callable s i = true ->
  sender msg = EscrowData.depositor e ->
  Milestone.status m = Submitted ->
  Milestone.submittedAt m + DISPUTE_PERIOD env + 1 <= MAX_UINT256 ->
  (timestamp msg = Milestone.submittedAt m + DISPUTE_PERIOD env ->
   exists s', disputeMilestone env msg i k r s = Ok (tt, s') /\
              Milestone.status (milestone_at s' i k) = MDisputed /\
              EscrowData.status (escrow_at s' i) = Disputed) /\
  (timestamp msg = Milestone.submittedAt m + DISPUTE_PERIOD env + 1 ->
   disputeMilestone env msg i k r s
     = Revert (Error "Dispute period expired") /\
   commit (disputeMilestone env msg i k r) s = s).
Proof.
  intros e m (Hv & Hp & Hg)%callable_elim Hs Hm Hmax. subst e m.
  split; intros Ht.
  - assert (exists s', disputeMilestone env msg i k r s = Ok (tt, s'))
      as [s' H] by (eexists; tx_fwd; reflexivity).
    exists s'. split; [exact H|].
    apply disputeMilestone_effect in H as (_ & _ & _ & _ & _ & He & Hms).
    unfold milestone_at at 1, escrow_at at 1.
    rewrite He, Hms, !lookup_insert_eq. auto.
  - assert (disputeMilestone env msg i k r s
            = Revert (Error "Dispute period expired")) as H
      by (tx_fwd; reflexivity).
    split; [exact H | by apply commit_revert in H].
Qed.

Lemma participant_check msg e :
  sender msg = EscrowData.depositor e \/
  sender msg = EscrowData.beneficiary e \/
  sender msg ∈ EscrowData.arbiters e ->
  bool_decide (sender msg = EscrowData.depositor e)
  || bool_decide (sender msg = EscrowData.beneficiary e)
  || bool_decide (sender msg ∈ EscrowData.arbiters e) = true.
Proof.
  intros [H|[H|H]];
    rewrite (bool_decide_eq_true_2 _ H), ?orb_true_r; reflexivity.
Qed.

Lemma not_committed tx s :
  (forall s', tx s <> Ok (tt, s')) ->
  (exists f, tx s = Revert f) /\ commit tx s = s.
Proof.
  intros H. destruct (commit_cases tx s) as [(f & Hf & Hc)|Hok].
  - eauto.
  - destruct (H _ Hok).
Qed.

(** C8. [resolveDispute] with [beneficiaryAmount] above the amount of the
    milestone never commits: it reverts, and the storage after the call is
    the storage before it, so no transfer is recorded and [paidAmount],
    the custody counter and both statuses are as they were.  For a
    Disputed milestone of a Disputed escrow, a participant calling and the
    contract callable, the revert reason is "Invalid allocation". *)
Theorem C8_invalid_allocation env msg i k b r s :
  let e := escrow_at s i in
  let m := milestone_at s i k in
  Milestone.amount m < b ->
  let s' := commit (resolveDispute env msg i k b r) s in
  (exists f, resolveDispute env msg i k b r s = Revert f) /\
  (s' = s /\
   transfers s' = transfers s /\
   EscrowData.paidAmount (escrow_at s' i) = EscrowData.paidAmount e /\
   counter_at (escrowedAmount s') (EscrowData.token e)
     = counter_at (escrowedAmount s) (EscrowData.token e) /\
   Milestone.status (milestone_at s' i k) = Milestone.status m /\
   EscrowData.status (escrow_at s' i) = EscrowData.status e) /\
  (callable s i = true ->
   (sender msg = EscrowData.depositor e \/
    sender msg = EscrowData.beneficiary e \/
    sender msg ∈ EscrowData.arbiters e) ->
   EscrowData.status e = Disputed ->
   Milestone.status m = MDisputed ->
   resolveDispute env msg i k b r s = Revert (Error "Invalid allocation")).
Proof.
  intros e m Hb s'.
  destruct (not_committed (resolveDispute env msg i k b r) s) as [Hf Hc].
  { intros s1 H.
    apply resolveDispute_effect in H as (_ & _ & _ & _ & Hle & _).
    fold m in Hle. lia. }
  split; [exact Hf|]. split.
  - subst s'. rewrite Hc. repeat split; reflexivity.
  - intros (Hv & Hp & Hg)%callable_elim Hs%participant_check Hst Hm.
    subst e m. clear - Hb Hv Hp Hg Hs Hst Hm. tx_fwd. reflexivity.
Qed.

(** The payments and the custody counter after a committed
    [resolveDispute]. *)
Lemma resolveDispute_commits env msg i k b r s :
  let e := escrow_at s i in
  let m := milestone_at s i k in
  let refund := Milestone.amount m - b in
  callable s i = true ->
  (sender msg = EscrowData.depositor e \/
   sender msg = EscrowData.beneficiary e \/
   sender msg ∈ EscrowData.arbiters e) ->
  EscrowData.status e = Disputed ->
  Milestone.status m = MDisputed ->
  b <= Milestone.amount m ->
  EscrowData.paidAmount e + b <= MAX_UINT256 ->
  Milestone.amount m <= counter_at (escrowedAmount s) (EscrowData.token e) ->
  (0 < b ->
   transferSucceeds env (EscrowData.token e) (EscrowData.beneficiary e) b
     = true) ->
  (0 < refund ->
   transferSucceeds env (EscrowData.token e) (EscrowData.depositor e) refund
     = true) ->
  exists s',
    resolveDispute env msg i k b r s = Ok (tt, s') /\
    transfers s' =
      (transfers s
       ++ (if bool_decide (0 < b)
           then [mkTransfer (EscrowData.token e) (EscrowData.beneficiary e) b]
           else [])
       ++ (if bool_decide (0 < refund)
           then [mkTransfer (EscrowData.token e) (EscrowData.depositor e)
                   refund]
           else []))%list /\
    counter_at (escrowedAmount s') (EscrowData.token e)
      = counter_at (escrowedAmount s) (EscrowData.token e)
        - Milestone.amount m.
Proof.
  intros e m refund (Hv & Hp & Hg)%callable_elim Hs Hst Hm Hb Hpaid Hcust
    Htb Htr.
  subst e m refund. apply participant_check in Hs.
  destruct (decide (0 < Milestone.amount (milestone_at s i k) - b))
    as [Hr0|Hr0];
  destruct (decide (EscrowData.paidAmount (escrow_at s i) + b
                    = EscrowData.totalAmount (escrow_at s i)))
    as [Hfull|Hfull];
  (destruct (decide (0 < b)) as [Hb0|Hb0];
    [|assert (b = 0) as -> by lia; rewrite ?N.add_0_r in Hfull]).
  all: try specialize (Htb Hb0); try specialize (Htr Hr0).
  all: eexists; split; [tx_fwd; reflexivity|].
  all: unfold escrow_at, milestone_at, counter_at in *; norm; decide_hyps.
  all: split; [rewrite <- ?app_assoc, ?app_nil_r; reflexivity | lia].
Qed.

(** C5. A Disputed milestone of a Disputed escrow, a participant calling
    with [beneficiaryAmount <= amount], custody holding the milestone
    amount, the transfers going through: [resolveDispute] commits, with
    [refundAmount = amount - beneficiaryAmount].  It pays
    [beneficiaryAmount] to the beneficiary when positive and adds exactly
    that to [paidAmount]; it pays [refundAmount] to the depositor when
    positive, which leaves custody but not [paidAmount]; no other payment
    is made.  The milestone becomes Resolved; the escrow is Released when
    [paidAmount] has reached [totalAmount] and InProgress otherwise. *)
Theorem C5_resolveDispute env msg i k b r s :
  let e := escrow_at s i in
  let m := milestone_at s i k in
  let refund := Milestone.amount m - b in
  callable s i = true ->
  (sender msg = EscrowData.depositor e \/
   sender msg = EscrowData.beneficiary e \/
   sender msg ∈ EscrowData.arbiters e) ->
  EscrowData.status e = Disputed ->
  Milestone.status m = MDisputed ->
  b <= Milestone.amount m ->
  EscrowData.paidAmount e + b <= MAX_UINT256 ->
  Milestone.amount m <= counter_at (escrowedAmount s) (EscrowData.token e) ->
  (0 < b ->
   transferSucceeds env (EscrowData.token e) (EscrowData.beneficiary e) b
     = true) ->
  (0 < refund ->
   transferSucceeds env (EscrowData.token e) (EscrowData.depositor e) refund
     = true) ->
  exists s',
    resolveDispute env msg i k b r s = Ok (tt, s') /\
    refund + b = Milestone.amount m /\
    transfers s' =
      (transfers s
       ++ (if bool_decide (0 < b)
           then [mkTransfer (EscrowData.token e) (EscrowData.beneficiary e) b]
           else [])
       ++ (if bool_decide (0 < refund)
           then [mkTransfer (EscrowData.token e) (EscrowData.depositor e)
                   refund]
           else []))%list /\
    EscrowData.paidAmount (escrow_at s' i) = EscrowData.paidAmount e + b /\
    counter_at (escrowedAmount s') (EscrowData.token e)
      = counter_at (escrowedAmount s) (EscrowData.token e)
        - Milestone.amount m /\
    Milestone.status (milestone_at s' i k) = Resolved /\
    EscrowData.status (escrow_at s' i)
      = (if bool_decide (EscrowData.paidAmount e + b
                         = EscrowData.totalAmount e)
         then Released else InProgress).
Proof.
  intros e m refund Hc Hs Hst Hm Hb Hpaid Hcust Htb Htr.
  destruct (resolveDispute_commits env msg i k b r s)
    as (s' & H & Htr' & Hcu'); auto.
  exists s'. split; [exact H|]. split; [subst refund; lia|].
  split; [exact Htr'|].
  apply resolveDispute_effect in H as (_ & _ & _ & _ & _ & He & Hms).
  fold e m in He, Hms.
  assert (escrow_at s' i = resolved b e) as ->
    by (unfold escrow_at at 1; rewrite He, lookup_insert_eq; reflexivity).
  assert (Milestone.status (milestone_at s' i k) = Resolved) as ->
    by (unfold milestone_at at 1; rewrite Hms, lookup_insert_eq;
        reflexivity).
  unfold resolved, settle.
  destruct (decide (0 < b)) as [Hb0|Hb0].
  - rewrite (bool_decide_eq_true_2 _ Hb0).
    cbn [EscrowData.paidAmount EscrowData.totalAmount EscrowData.status
         EscrowData.with_status EscrowData.with_paidAmount].
    destruct (decide (EscrowData.paidAmount e + b = EscrowData.totalAmount e))
      as [F|F];
      rewrite ?(bool_decide_eq_true_2 _ F), ?(bool_decide_eq_false_2 _ F);
      cbn; auto.
  - rewrite (bool_decide_eq_false_2 _ Hb0).
    assert (b = 0) as -> by lia. rewrite N.add_0_r.
    cbn [EscrowData.paidAmount EscrowData.totalAmount EscrowData.status
         EscrowData.with_status EscrowData.with_paidAmount].
    destruct (decide (EscrowData.paidAmount e = EscrowData.totalAmount e))
      as [F|F];
      rewrite ?(bool_decide_eq_true_2 _ F), ?(bool_decide_eq_false_2 _ F);
      cbn; auto.
Qed.

(** C6, as the code has it.  After a committed [resolveDispute] the
    milestone's [disputedBy] holds the beneficiary when
    [beneficiaryAmount] is strictly larger than [refundAmount] and the
    depositor otherwise: when the refund is larger and also on an exactly
    even split. *)
Theorem C6_winner env msg i k b r s s' :
  let e := escrow_at s i in
  let m := milestone_at s i k in
  let refund := Milestone.amount m - b in
  resolveDispute env msg i k b r s = Ok (tt, s') ->
  let winner := Milestone.disputedBy (milestone_at s' i k) in
  (refund < b -> winner = EscrowData.beneficiary e) /\
  (b < refund -> winner = EscrowData.depositor e) /\
  (b = refund -> winner = EscrowData.depositor e).
Proof.
  intros e m refund H winner.
  apply resolveDispute_effect in H as (_ & _ & _ & _ & _ & _ & Hms).
  fold e m refund in Hms.
  assert (winner = winner_of e b refund) as ->.
  { subst winner. unfold milestone_at at 1.
    rewrite Hms, lookup_insert_eq. reflexivity. }
  unfold winner_of.
  repeat split; intros Hcmp; case_bool_decide; auto; lia.
Qed.

(** ** Reachable states *)

(** C1. From a fresh escrow whose milestone amounts sum to
    [totalAmount], after any sequence of calls of the seven operations
    (on this or any other escrow, committed or reverted):
    [paidAmount <= totalAmount], the milestone amounts still sum to
    [totalAmount], and [totalAmount] is what it was at the start. *)
Theorem C1_conservation env s0 i calls :
  fresh s0 i = true ->
  let s := run env calls s0 in
  let e := escrow_at s i in
  EscrowData.paidAmount e <= EscrowData.totalAmount e /\
  milestone_total s i = EscrowData.totalAmount e /\
  EscrowData.totalAmount e = EscrowData.totalAmount (escrow_at s0 i).
Proof.
  intros Hf s e.
  pose proof (fresh_elim s0 i Hf) as (_ & _ & _ & Htot & _).
  pose proof (run_inv env calls s0 i (fresh_inv s0 i Hf)) as (I1 & _ & _).
  pose proof (run_static env calls s0 i) as (St & _ & _ & Sm).
  fold s in I1, St, Sm. fold e in I1, St.
  repeat split; [lia | congruence | assumption].
Qed.

Lemma positive_elim s j l :
  positive_amounts s j = true ->
  l < EscrowData.milestoneCount (escrow_at s j) ->
  0 < Milestone.amount (milestone_at s j l).
Proof.
  unfold positive_amounts. rewrite forallb_forall. intros H Hl.
  assert (In l (indices (EscrowData.milestoneCount (escrow_at s j)))) as Hin
    by apply list_elem_of_In, elem_of_indices, Hl.
  apply H in Hin. by apply bool_decide_eq_true_1 in Hin.
Qed.

Lemma positive_run env cs s j :
  positive_amounts s j = true -> positive_amounts (run env cs s) j = true.
Proof.
  intros H. unfold positive_amounts. apply forallb_forall. intros l Hl.
  apply list_elem_of_In, elem_of_indices in Hl.
  destruct (run_static env cs s j) as (_ & Hc & Ha & _).
  rewrite Hc in Hl. rewrite Ha. apply bool_decide_eq_true_2.
  by apply positive_elim.
Qed.

(** In a closed escrow every milestone is settled; beyond the array
    there are only untouched records. *)
Lemma closed_none_pending s j : closed s j -> none_pending s j.
Proof.
  intros ((I1 & I2 & I3) & Hpos & Hrel) l. cbv zeta.
  specialize (I3 Hrel).
  destruct (decide (l < EscrowData.milestoneCount (escrow_at s j)))
    as [Hl|Hl].
  - assert (unsettled_total s j = 0) as Hz by lia.
    apply (sum_upto_zero _ _ (N.to_nat l)) in Hz; [|lia].
    cbv beta in Hz. rewrite N2Nat.id in Hz.
    pose proof (positive_elim s j l Hpos Hl) as Hp.
    unfold open_amount in Hz.
    destruct (Milestone.status (milestone_at s j l)); cbn in Hz;
      auto; lia.
  - left. destruct (decide
      (Milestone.status (milestone_at s j l) = NotStarted)) as [|Hn];
      [assumption|]. apply I2 in Hn. contradiction.
Qed.

(** No call commits on a closed escrow. *)
Lemma closed_rejects env msg c s s' j :
  closed s j ->
  dispatch env msg c s = Ok (tt, s') ->
  match c with
  | CStartWork i | CSubmitMilestone i _ _ | CApproveMilestone i _ _ _
  | CRejectMilestone i _ _ | CResubmitMilestone i _ _
  | CDisputeMilestone i _ _ | CResolveDispute i _ _ _ => i <> j
  end.
Proof.
  intros Hcl H.
  pose proof (closed_none_pending s j Hcl) as Hnp.
  destruct Hcl as (_ & _ & Hrel).
  destruct c as [i|i k d|i k v sg|i k r|i k d|i k r|i k b r]; simpl in H;
    intros ->.
  - apply startWork_effect in H as (_ & _ & Hst & _). congruence.
  - apply submitMilestone_effect in H as (_ & _ & Hst & _). congruence.
  - apply approveMilestone_effect in H as (_ & _ & Hst & _). congruence.
  - apply rejectMilestone_effect in H as (_ & _ & Hst & _). congruence.
  - apply resubmitMilestone_effect in H as (_ & _ & Hst & _). congruence.
  - apply disputeMilestone_effect in H as (_ & _ & Hms & _).
    destruct (Hnp k) as [?|[?|?]]; congruence.
  - apply resolveDispute_effect in H as (_ & _ & Hst & _). congruence.
Qed.

Lemma closed_step env s mc j : closed s j -> closed (step env s mc) j.
Proof.
  intros Hcl. destruct mc as [msg c]. unfold step. simpl.
  destruct (commit_cases (dispatch env msg c) s) as [(f & _ & ->)|H];
    [assumption|].
  pose proof (closed_rejects env msg c s _ j Hcl H) as Hne.
  pose proof (step_transition env msg c s _ H) as T.
  destruct Hcl as (I & Hpos & Hrel).
  split; [eapply transition_inv; eauto|]. split.
  - apply (positive_run env [(msg, c)] s j Hpos).
  - replace (escrow_at (commit (dispatch env msg c) s) j)
      with (escrow_at s j); [assumption|].
    revert H. generalize (commit (dispatch env msg c) s). intros s' H.
    destruct c as [i|i k d|i k v sg|i k r|i k d|i k r|i k b r]; simpl in H.
    + apply startWork_effect in H as (_ & _ & _ & _ & He & _).
      unfold escrow_at. rewrite He, lookup_insert_ne; done.
    + apply submitMilestone_effect in H as (_ & _ & _ & _ & _ & He & _).
      unfold escrow_at. rewrite He; done.
    + apply approveMilestone_effect in H as (_ & _ & _ & _ & _ & He & _).
      unfold escrow_at. rewrite He, lookup_insert_ne; done.
    + apply rejectMilestone_effect in H as (_ & _ & _ & _ & _ & He & _).
      unfold escrow_at. rewrite He; done.
    + apply resubmitMilestone_effect in H as (_ & _ & _ & _ & _ & He & _).
      unfold escrow_at. rewrite He; done.
    + apply disputeMilestone_effect in H as (_ & _ & _ & _ & _ & He & _).
      unfold escrow_at. rewrite He, lookup_insert_ne; done.
    + apply resolveDispute_effect in H as (_ & _ & _ & _ & _ & He & _).
      unfold escrow_at. rewrite He, lookup_insert_ne; done.
Qed.

Lemma closed_run env cs s j : closed s j -> closed (run env cs s) j.
Proof.
  intros H. induction cs as [|mc cs IH] using rev_ind; [exact H|].
  rewrite run_snoc. by apply closed_step.
Qed.


(** ** The claims on the worked example *)

Ltac by_compute := vm_compute; first [reflexivity | discriminate | tauto].

Lemma C1_witness :
  fresh Demo.s0 1 = true /\
  let s := run Demo.env Demo.completed Demo.s0 in
  let e := escrow_at s 1 in
  EscrowData.paidAmount e <= EscrowData.totalAmount e /\
  milestone_total s 1 = EscrowData.totalAmount e /\
  EscrowData.totalAmount e = EscrowData.totalAmount (escrow_at Demo.s0 1).
Proof.
  assert (fresh Demo.s0 1 = true) as Hf by by_compute.
  exact (conj Hf (C1_conservation Demo.env Demo.s0 1 Demo.completed Hf)).
Defined.

(** C2.  [disputeMilestone] does not look at the escrow status: with the
    escrow already Disputed over its first milestone, the depositor's
    dispute of the second, Submitted one commits. *)
Theorem C2_dispute_ignores_escrow_status :
  let s := run Demo.env Demo.disputed Demo.s0 in
  let tx := disputeMilestone Demo.env (Demo.by_client 1004) 1 1 "late" in
  EscrowData.status (escrow_at s 1) = Disputed /\
  Milestone.status (milestone_at s 1 1) = Submitted /\
  commits tx s = true /\
  Milestone.status (milestone_at (commit tx s) 1 1) = MDisputed /\
  EscrowData.status (escrow_at (commit tx s) 1) = Disputed.
Proof. repeat split; by_compute. Qed.

(** C3.  Two milestones of one escrow in dispute at the same time, five
    calls after its creation; and once the first dispute is resolved the
    escrow is InProgress again, so that the second cannot be resolved:
    [resolveDispute] reverts with "Not in dispute". *)
Theorem C3_two_disputed :
  let s := run Demo.env Demo.disputed_twice Demo.s0 in
  let s' := commit (resolveDispute Demo.env (Demo.by_client 1005) 1 0 40
                      "partial") s in
  fresh Demo.s0 1 = true /\
  Milestone.status (milestone_at s 1 0) = MDisputed /\
  Milestone.status (milestone_at s 1 1) = MDisputed /\
  disputed_count s 1 = 2%nat /\
  EscrowData.status (escrow_at s' 1) = InProgress /\
  Milestone.status (milestone_at s' 1 1) = MDisputed /\
  resolveDispute Demo.env (Demo.by_client 1006) 1 1 200 "accepted" s'
    = Revert (Error "Not in dispute").
Proof. repeat split; by_compute. Qed.


Lemma C5_witness :
  let s := run Demo.env Demo.disputed Demo.s0 in
  exists s',
    resolveDispute Demo.env (Demo.by_client 1004) 1 0 40 "partial" s
      = Ok (tt, s') /\
    transfers s' = [ mkTransfer Demo.cUSD Demo.freelancer 40;
                     mkTransfer Demo.cUSD Demo.client 60 ] /\
    EscrowData.paidAmount (escrow_at s' 1) = 40 /\
    EscrowData.status (escrow_at s' 1) = InProgress.
Proof.
  intros s.
  assert (callable s 1 = true) as Hc by by_compute.
  assert (sender (Demo.by_client 1004) = EscrowData.depositor (escrow_at s 1))
    as Hs by by_compute.
  assert (EscrowData.status (escrow_at s 1) = Disputed) as He by by_compute.
  assert (Milestone.status (milestone_at s 1 0) = MDisputed)
    as Hm by by_compute.
  assert (40 <= Milestone.amount (milestone_at s 1 0)) as Hb by by_compute.
  assert (EscrowData.paidAmount (escrow_at s 1) + 40 <= MAX_UINT256)
    as Hp by by_compute.
  assert (Milestone.amount (milestone_at s 1 0)
          <= counter_at (escrowedAmount s) (EscrowData.token (escrow_at s 1)))
    as Hcu by by_compute.
  pose proof (C5_resolveDispute Demo.env (Demo.by_client 1004) 1 0 40
                "partial" s Hc (or_introl Hs) He Hm Hb Hp Hcu
                (fun _ => eq_refl) (fun _ => eq_refl)) as W.
  cbv zeta in W.
  destruct W as (s' & H & _ & Ht & Hpaid & _ & _ & Hst).
  exists s'. split; [exact H|]. split; [|split].
  - etransitivity; [exact Ht | by_compute].
  - etransitivity; [exact Hpaid | by_compute].
  - etransitivity; [exact Hst | by_compute].
Defined.

(** C6 fails on an even split: 50 of 100 each, and the milestone records
    the depositor as the winner, not a tie. *)
Lemma C6_counterexample :
  let s := run Demo.env Demo.disputed Demo.s0 in
  let tx := resolveDispute Demo.env (Demo.by_client 1004) 1 0 50 "split" in
  let winner := Milestone.disputedBy (milestone_at (commit tx s) 1 0) in
  commits tx s = true /\
  Milestone.amount (milestone_at s 1 0) - 50 = 50 /\
  Demo.client <> Demo.freelancer /\
  winner = EscrowData.depositor (escrow_at s 1) /\
  ~ (winner <> EscrowData.depositor (escrow_at s 1) /\
     winner <> EscrowData.beneficiary (escrow_at s 1)).
Proof.
  repeat split; by_compute.
Qed.

Lemma C6_witness :
  let s := run Demo.env Demo.disputed Demo.s0 in
  let tx := resolveDispute Demo.env (Demo.by_client 1004) 1 0 50 "split" in
  tx s = Ok (tt, commit tx s) /\
  (50 = Milestone.amount (milestone_at s 1 0) - 50 ->
   Milestone.disputedBy (milestone_at (commit tx s) 1 0)
     = EscrowData.depositor (escrow_at s 1)).
Proof.
  intros s tx.
  assert (tx s = Ok (tt, commit tx s)) as H by by_compute.
  pose proof (C6_winner Demo.env (Demo.by_client 1004) 1 0 50 "split" s
                (commit tx s) H) as W.
  cbv zeta in W. destruct W as (_ & _ & Htie).
  exact (conj H Htie).
Defined.

Lemma C7_witness :
  let s := run Demo.env Demo.both_submitted Demo.s0 in
  (exists s',
     disputeMilestone Demo.env (Demo.by_client 605801) 1 0 "late" s
       = Ok (tt, s') /\
     Milestone.status (milestone_at s' 1 0) = MDisputed /\
     EscrowData.status (escrow_at s' 1) = Disputed) /\
  disputeMilestone Demo.env (Demo.by_client 605802) 1 0 "late" s
    = Revert (Error "Dispute period expired").
Proof.
  intros s.
  assert (callable s 1 = true) as Hc by by_compute.
  assert (Milestone.status (milestone_at s 1 0) = Submitted)
    as Hm by by_compute.
  assert (Milestone.submittedAt (milestone_at s 1 0)
          + DISPUTE_PERIOD Demo.env + 1 <= MAX_UINT256) as Hmax by by_compute.
  split.
  - assert (sender (Demo.by_client 605801)
            = EscrowData.depositor (escrow_at s 1)) as Hs by by_compute.
    pose proof (C7_dispute_window Demo.env (Demo.by_client 605801) 1 0
                  "late" s Hc Hs Hm Hmax) as W.
    cbv zeta in W. destruct W as [Hin _]. apply Hin. by_compute.
  - assert (sender (Demo.by_client 605802)
            = EscrowData.depositor (escrow_at s 1)) as Hs by by_compute.
    pose proof (C7_dispute_window Demo.env (Demo.by_client 605802) 1 0
                  "late" s Hc Hs Hm Hmax) as W.
    cbv zeta in W. destruct W as [_ Hout]. apply Hout. by_compute.
Defined.

Lemma C8_witness :
  let s := run Demo.env Demo.disputed Demo.s0 in
  let tx := resolveDispute Demo.env (Demo.by_client 1004) 1 0 150
              "all of it" in
  Milestone.amount (milestone_at s 1 0) < 150 /\
  tx s = Revert (Error "Invalid allocation") /\
  commit tx s = s.
Proof.
  intros s tx.
  assert (callable s 1 = true) as Hc by by_compute.
  assert (sender (Demo.by_client 1004) = EscrowData.depositor (escrow_at s 1))
    as Hs by by_compute.
  assert (EscrowData.status (escrow_at s 1) = Disputed) as He by by_compute.
  assert (Milestone.status (milestone_at s 1 0) = MDisputed)
    as Hm by by_compute.
  assert (Milestone.amount (milestone_at s 1 0) < 150) as Hb by by_compute.
  pose proof (C8_invalid_allocation Demo.env (Demo.by_client 1004) 1 0 150
                "all of it" s Hb) as W.
  cbv zeta in W. destruct W as (_ & (H2 & _) & H1).
  exact (conj Hb (conj (H1 Hc (or_introl Hs) He Hm) H2)).
Defined.

Lemma C9_witness :
  callable Demo.s0 1 = true /\
  (exists s', startWork (Demo.by_freelancer 1000) 1 Demo.s0 = Ok (tt, s')) /\
  forall s', startWork (Demo.by_freelancer 1000) 1 Demo.s0 = Ok (tt, s') ->
    EscrowData.status (escrow_at s' 1) = InProgress /\
    counter_at (totalFeesByToken s') Demo.cUSD = 3.
Proof.
  assert (callable Demo.s0 1 = true) as Hc by by_compute.
  assert (counter_at (totalFeesByToken Demo.s0)
            (EscrowData.token (escrow_at Demo.s0 1))
          + EscrowData.platformFee (escrow_at Demo.s0 1) <= MAX_UINT256)
    as Hfee by by_compute.
  pose proof (C9_startWork (Demo.by_freelancer 1000) 1 Demo.s0 Hc Hfee) as W.
  cbv zeta in W. destruct W as ([_ Hiff] & Heff & _).
  split; [exact Hc|]. split.
  - apply Hiff. repeat split; by_compute.
  - intros s' H. destruct (Heff s' H) as (_ & Hst & Hf & _).
    split; [exact Hst|]. etransitivity; [exact Hf | by_compute].
Defined.

Lemma C10_witness :
  let s := run Demo.env Demo.working Demo.s0 in
  exists s',
    submitMilestone (Demo.by_freelancer 1001) 1 0 "" s = Ok (tt, s') /\
    Milestone.description (milestone_at s' 1 0)
      = Milestone.description (milestone_at s 1 0) /\
    Milestone.submittedAt (milestone_at s' 1 0) = 1001.
Proof.
  intros s.
  assert (callable s 1 = true) as Hc by by_compute.
  assert (sender (Demo.by_freelancer 1001)
          = EscrowData.beneficiary (escrow_at s 1)) as Hs by by_compute.
  assert (EscrowData.status (escrow_at s 1) = InProgress) as He by by_compute.
  assert (0 < EscrowData.milestoneCount (escrow_at s 1)) as Hk by by_compute.
  pose proof (C10_description_overwrite (Demo.by_freelancer 1001) 1 0 "" s
                Hc Hs He Hk) as W.
  cbv zeta in W. destruct W as [Hsub _].
  destruct Hsub as (s' & H & Hd & _ & Ht & _); [by_compute|].
  exists s'. split; [exact H|]. split; [exact (Hd eq_refl) | exact Ht].
Defined.


(** * Further properties of the lifecycle *)

(** ** A committed call at a glance *)

Ltac summary_rest :=
  split; [assumption|];
  split; [intros ? [=]; subst; assumption|];
  split; [intros ? [=]; subst; assumption|];
  first [intros _; assumption | intros [=]].

Lemma dispatch_summary env msg c s s' :
  dispatch env msg c s = Ok (tt, s') ->
  let i := call_escrow c in
  let k := call_index c in
  updates s s' i k (escrow_after msg c s) (milestone_after msg c s) /\
  callable s i = true /\
  (forall st, required_status c = Some st ->
     Milestone.status (milestone_at s i k) = st) /\
  (forall st, required_escrow_status c = Some st ->
     EscrowData.status (escrow_at s i) = st) /\
  (checks_index c = true -> k < EscrowData.milestoneCount (escrow_at s i)).
Proof.
  destruct c as [i|i k d|i k v sg|i k r|i k d|i k r|i k b r]; simpl; intros H.
  - apply startWork_effect in H as (_ & Hc & Hst & _ & He & Hm).
    split; [by apply updates_escrow|]. summary_rest.
  - apply submitMilestone_effect in H as (_ & Hc & Hst & Hk & Hms & He & Hm).
    split; [by apply updates_milestone|]. summary_rest.
  - apply approveMilestone_effect in H as (_ & Hc & Hst & Hk & Hms & He & Hm).
    split; [by apply updates_both|]. summary_rest.
  - apply rejectMilestone_effect in H as (_ & Hc & Hst & Hk & Hms & He & Hm).
    split; [by apply updates_milestone|]. summary_rest.
  - apply resubmitMilestone_effect in H as (_ & Hc & Hst & Hk & Hms & He & Hm).
    split; [by apply updates_milestone|]. summary_rest.
  - apply disputeMilestone_effect in H as (_ & Hc & Hms & _ & _ & He & Hm).
    split; [by apply updates_both|]. summary_rest.
  - apply resolveDispute_effect in H as (_ & Hc & Hst & Hms & _ & He & Hm).
    split; [by apply updates_both|]. summary_rest.
Qed.

(** ** Payments and custody *)

Lemma outflow_app tok l1 l2 :
  outflow tok (l1 ++ l2) = outflow tok l1 + outflow tok l2.
Proof.
  induction l1 as [|t l1 IH]; simpl; [reflexivity|].
  rewrite IH. case_bool_decide; lia.
Qed.

Ltac custody_cases t :=
  intros t; unfold outflow; cbn [foldr app tr_token tr_amount];
  repeat match goal with
  | |- context [<[?k:=_]> _ !! t] =>
      destruct (decide (k = t));
      [subst; rewrite ?lookup_insert_eq
      |rewrite ?lookup_insert_ne by assumption]
  end;
  cbn [default from_option id];
  repeat case_bool_decide; try congruence; try lia.

Lemma dispatch_funds env msg c s s' :
  dispatch env msg c s = Ok (tt, s') ->
  transfers s' = (transfers s ++ payments c s)%list /\
  forall t, counter_at (escrowedAmount s) t
            = counter_at (escrowedAmount s') t + outflow t (payments c s).
Proof.
  destruct c as [i|i k d|i k v sg|i k r|i k d|i k r|i k b r]; simpl; intros H;
    unfold_ops H; tx_inv H; props; unfold payments; norm;
    decide_hyps; cbn [call_escrow call_index];
    (split; [rewrite <- ?app_assoc, ?app_nil_r; reflexivity|]).
  all: custody_cases t.
Qed.

(** Induction over the states of a run, along the committed calls. *)
Lemma run_committed_ind env (P : Storage -> Prop) s :
  P s ->
  (forall s1 msg c s2,
     P s1 -> dispatch env msg c s1 = Ok (tt, s2) -> P s2) ->
  forall cs, P (run env cs s).
Proof.
  intros H0 Hstep cs. induction cs as [|[msg c] cs IH] using rev_ind.
  - exact H0.
  - rewrite run_snoc. unfold step. simpl.
    destruct (commit_cases (dispatch env msg c) (run env cs s))
      as [(f & _ & ->)|H]; [exact IH|].
    eapply Hstep; eauto.
Qed.

Lemma step_cases_dispatch env s msg c :
  step env s (msg, c) = s \/
  dispatch env msg c s = Ok (tt, step env s (msg, c)).
Proof.
  unfold step. simpl.
  destruct (commit_cases (dispatch env msg c) s) as [(f & _ & ->)|H]; auto.
Qed.

Lemma escrow_after_terms msg c s :
  same_terms (escrow_at s (call_escrow c)) (escrow_after msg c s).
Proof.
  unfold same_terms, escrow_after, approved, resolved, settle.
  destruct c; simpl; repeat case_bool_decide; simpl; repeat split.
Qed.

Lemma escrow_after_paid msg c s :
  EscrowData.paidAmount (escrow_at s (call_escrow c))
    <= EscrowData.paidAmount (escrow_after msg c s).
Proof.
  unfold escrow_after, approved, resolved.
  destruct c; simpl; rewrite ?settle_paid; simpl;
    try case_bool_decide; simpl; lia.
Qed.

Lemma milestone_after_amount msg c s :
  Milestone.amount (milestone_after msg c s)
    = Milestone.amount (milestone_at s (call_escrow c) (call_index c)).
Proof.
  unfold milestone_after.
  destruct c; simpl; rewrite ?submitted_amount; reflexivity.
Qed.

Lemma same_terms_refl e : same_terms e e.
Proof. repeat split. Qed.

Lemma same_terms_trans e1 e2 e3 :
  same_terms e1 e2 -> same_terms e2 e3 -> same_terms e1 e3.
Proof.
  unfold same_terms. intros H1 H2.
  destruct H1 as (? & ? & ? & ? & ? & ? & ? & ? & ? & ?).
  destruct H2 as (? & ? & ? & ? & ? & ? & ? & ? & ? & ?).
  repeat split; congruence.
Qed.

(** ** Properties of every run *)

(** X1. Custody accounting.  Over any run, the payments are appended to
    the log of transfers, and for every token the custody counter
    [escrowedAmount] has dropped by exactly what the new payments in that
    token add up to. *)
Theorem custody_accounting env calls s :
  exists paid_out,
    transfers (run env calls s) = (transfers s ++ paid_out)%list /\
    forall tok,
      counter_at (escrowedAmount s) tok
      = counter_at (escrowedAmount (run env calls s)) tok
        + outflow tok paid_out.
Proof.
  apply (run_committed_ind env (fun s' =>
    exists paid_out,
      transfers s' = (transfers s ++ paid_out)%list /\
      forall tok, counter_at (escrowedAmount s) tok
                  = counter_at (escrowedAmount s') tok + outflow tok paid_out)).
  - exists []. split; [by rewrite app_nil_r|]. intros tok. simpl. lia.
  - intros s1 msg c s2 (po & Ht & Hc) H.
    apply dispatch_funds in H as (Ht2 & Hc2).
    exists (po ++ payments c s1)%list. split.
    + rewrite Ht2, Ht, app_assoc. reflexivity.
    + intros tok. rewrite outflow_app, (Hc tok), (Hc2 tok). lia.
Qed.

(** X2. [paidAmount] never decreases: over any run, for every escrow. *)
Theorem paid_never_decreases env calls s j :
  EscrowData.paidAmount (escrow_at s j)
    <= EscrowData.paidAmount (escrow_at (run env calls s) j).
Proof.
  apply (run_committed_ind env (fun s' =>
    EscrowData.paidAmount (escrow_at s j)
      <= EscrowData.paidAmount (escrow_at s' j))); [lia|].
  intros s1 msg c s2 IH H.
  apply dispatch_summary in H as ([He _] & _). rewrite (He j).
  case_decide; [subst j|assumption].
  pose proof (escrow_after_paid msg c s1). lia.
Qed.

(** X3. The terms of an escrow are fixed: no run changes its depositor,
    beneficiary, arbiters, required confirmations, total amount, platform
    fee, token, deadline, creation time or milestone count, nor the
    amount of any of its milestones. *)
Theorem terms_never_change env calls s j :
  same_terms (escrow_at s j) (escrow_at (run env calls s) j) /\
  forall l, Milestone.amount (milestone_at (run env calls s) j l)
            = Milestone.amount (milestone_at s j l).
Proof.
  apply (run_committed_ind env (fun s' =>
    same_terms (escrow_at s j) (escrow_at s' j) /\
    forall l, Milestone.amount (milestone_at s' j l)
              = Milestone.amount (milestone_at s j l))).
  - split; [apply same_terms_refl | reflexivity].
  - intros s1 msg c s2 [IHe IHm] H.
    apply dispatch_summary in H as ([He Hm] & _). split.
    + rewrite (He j). case_decide; [subst j|assumption].
      eapply same_terms_trans; [exact IHe | apply escrow_after_terms].
    + intros l. rewrite (Hm j l), <- (IHm l).
      case_decide as Hjl; [|reflexivity]. destruct Hjl as [-> ->].
      apply milestone_after_amount.
Qed.

Lemma milestone_after_edge msg c s st :
  required_status c = Some st ->
  edge st (Milestone.status (milestone_after msg c s)) = true.
Proof.
  unfold milestone_after.
  destruct c; simpl; intros [= <-]; rewrite ?submitted_status; reflexivity.
Qed.

Lemma milestone_after_start msg c s :
  required_status c = None ->
  milestone_after msg c s = milestone_at s (call_escrow c) (call_index c).
Proof. destruct c; simpl; intros [=]. reflexivity. Qed.

(** What a committed call does to the status of any milestone: nothing,
    or one step of the milestone it addresses from the status it
    requires. *)
Lemma dispatch_status env msg c s s' j l :
  dispatch env msg c s = Ok (tt, s') ->
  milestone_at s' j l = milestone_at s j l \/
  (j = call_escrow c /\ l = call_index c /\
   required_status c = Some (Milestone.status (milestone_at s j l)) /\
   milestone_at s' j l = milestone_after msg c s).
Proof.
  intros H. apply dispatch_summary in H as ([_ Hm] & _ & Hreq & _).
  rewrite (Hm j l). case_decide as Hjl; [|by left].
  destruct Hjl as [-> ->].
  destruct (required_status c) as [st|] eqn:E.
  - right. repeat split. by rewrite (Hreq st eq_refl).
  - left. by apply milestone_after_start.
Qed.

(** X4. The milestone state machine.  In one call a milestone keeps its
    status or moves along one of NotStarted -> Submitted,
    Submitted -> Approved | Rejected | Disputed, Rejected -> Submitted,
    Disputed -> Resolved. *)
Theorem milestone_status_moves env s mc j l :
  let st := Milestone.status (milestone_at s j l) in
  let st' := Milestone.status (milestone_at (step env s mc) j l) in
  st' = st \/ edge st st' = true.
Proof.
  destruct mc as [msg c]. cbv zeta.
  destruct (step_cases_dispatch env s msg c) as [->|H]; [by left|].
  destruct (dispatch_status env msg c s _ j l H)
    as [->|(-> & -> & Hreq & ->)]; [by left|].
  right. by apply milestone_after_edge.
Qed.

(** X5. Settled is final.  Once a milestone is Approved or Resolved, no
    run changes anything in its record: it is paid out at most once. *)
Theorem settled_is_final env calls s j l :
  settled (Milestone.status (milestone_at s j l)) = true ->
  milestone_at (run env calls s) j l = milestone_at s j l.
Proof.
  intros Hs.
  apply (run_committed_ind env (fun s' =>
    milestone_at s' j l = milestone_at s j l)); [reflexivity|].
  intros s1 msg c s2 IH H.
  destruct (dispatch_status env msg c s1 s2 j l H)
    as [->|(_ & _ & Hreq & _)]; [exact IH|].
  rewrite IH in Hreq.
  destruct (Milestone.status (milestone_at s j l)); try discriminate;
    destruct c; discriminate.
Qed.

(** X6. Locality.  A call leaves every escrow but the one it names as it
    was, and every milestone record but the one it names. *)
Theorem call_is_local env s mc :
  let s' := step env s mc in
  (forall j, j <> call_escrow mc.2 -> escrow_at s' j = escrow_at s j) /\
  (forall j l, (j, l) <> (call_escrow mc.2, call_index mc.2) ->
               milestone_at s' j l = milestone_at s j l).
Proof.
  destruct mc as [msg c]. cbv zeta. simpl.
  destruct (step_cases_dispatch env s msg c) as [->|H]; [done|].
  apply dispatch_summary in H as ([He Hm] & _). split.
  - intros j Hj. rewrite (He j). by rewrite decide_False.
  - intros j l Hjl. rewrite (Hm j l). rewrite decide_False; [done|].
    intros [-> ->]. by apply Hjl.
Qed.

(** ** Properties of the runs from a fresh escrow *)

(** X7. Nothing happens before work starts.  From a fresh escrow, as
    long as the escrow is Pending every milestone is NotStarted, nothing
    is paid and [workStarted] is false. *)
Theorem pending_is_untouched env calls s0 j :
  fresh s0 j = true ->
  let s := run env calls s0 in
  EscrowData.status (escrow_at s j) = Pending ->
  EscrowData.workStarted (escrow_at s j) = false /\
  EscrowData.paidAmount (escrow_at s j) = 0 /\
  forall l, Milestone.status (milestone_at s j l) = NotStarted.
Proof.
  intros (Hst & Hw & Hp & _ & Hm)%fresh_elim. cbv zeta.
  apply (run_committed_ind env (fun s =>
    EscrowData.status (escrow_at s j) = Pending ->
    EscrowData.workStarted (escrow_at s j) = false /\
    EscrowData.paidAmount (escrow_at s j) = 0 /\
    forall l, Milestone.status (milestone_at s j l) = NotStarted)); [auto|].
  intros s1 msg c s2 IH H.
  pose proof (dispatch_summary env msg c s1 s2 H)
    as ([He Hm2] & _ & Hreq & Hreqe & _).
  rewrite (He j). case_decide as Hj.
  - subst j. intros Hafter.
    assert (EscrowData.status (escrow_at s1 (call_escrow c)) = Pending
            -> False) as Hno.
    { intros Hpend. destruct (IH Hpend) as (_ & _ & Hall).
      destruct c; simpl in *;
        try (specialize (Hreqe _ eq_refl); congruence).
      specialize (Hreq _ eq_refl). rewrite Hall in Hreq. discriminate. }
    exfalso. revert Hafter.
    unfold escrow_after, approved, resolved, settle.
    destruct c; simpl; repeat case_bool_decide; simpl;
      try discriminate; try (intros Hx; exact (Hno Hx)).
  - intros Hpend. destruct (IH Hpend) as (Hw1 & Hp1 & Hall).
    repeat split; try assumption.
    intros l. rewrite (Hm2 j l), decide_False; [apply Hall | tauto].
Qed.

(** X8. Work starts once.  An escrow that has left Pending is never
    Pending again, whatever is called, so [startWork] reverts on it for
    good. *)
Theorem started_for_good env calls s j msg :
  EscrowData.status (escrow_at s j) <> Pending ->
  let s' := run env calls s in
  EscrowData.status (escrow_at s' j) <> Pending /\
  (exists f, startWork msg j s' = Revert f) /\
  commit (startWork msg j) s' = s'.
Proof.
  intros Hst. cbv zeta.
  assert (EscrowData.status (escrow_at (run env calls s) j) <> Pending) as H'.
  { apply (run_committed_ind env (fun s' =>
      EscrowData.status (escrow_at s' j) <> Pending)); [exact Hst|].
    intros s1 m1 c s2 IH H.
    apply dispatch_summary in H as ([He _] & _). rewrite (He j).
    case_decide; [subst j|assumption].
    unfold escrow_after, approved, resolved, settle.
    destruct c; simpl; repeat case_bool_decide; simpl;
      try discriminate; assumption. }
  split; [exact H'|]. apply not_committed. intros s2 H.
  apply startWork_effect in H as (_ & _ & Hp & _). contradiction.
Qed.

(** X9. Released means paid in full.  From a fresh escrow, whenever a
    run leaves the escrow Released, [paidAmount = totalAmount]. *)
Theorem released_is_paid_in_full env calls s0 j :
  fresh s0 j = true ->
  let s := run env calls s0 in
  EscrowData.status (escrow_at s j) = Released ->
  EscrowData.paidAmount (escrow_at s j)
    = EscrowData.totalAmount (escrow_at s j).
Proof.
  intros Hf. cbv zeta.
  pose proof (run_inv env calls s0 j (fresh_inv s0 j Hf)) as (_ & _ & I3).
  exact I3.
Qed.

(** X10. Indices beyond the milestone array.  From a fresh escrow, a
    call that addresses a milestone index at or above [milestoneCount]
    always reverts and changes nothing: by the explicit bound check in
    submit, approve, reject and resubmit, and in dispute and resolve,
    which have no such check, because a record beyond the array is never
    anything but NotStarted. *)
Theorem index_beyond_array_reverts env calls s0 j k msg c :
  fresh s0 j = true ->
  let s := run env calls s0 in
  EscrowData.milestoneCount (escrow_at s j) <= k ->
  call_escrow c = j -> call_index c = k -> required_status c <> None ->
  (exists f, dispatch env msg c s = Revert f) /\ step env s (msg, c) = s.
Proof.
  intros Hf s Hk Hj Hi Hreq.
  pose proof (run_inv env calls s0 j (fresh_inv s0 j Hf)) as (_ & I2 & _).
  fold s in I2.
  apply (not_committed (dispatch env msg c) s). intros s' H.
  apply dispatch_summary in H as (_ & _ & Hst & _ & Hchk).
  rewrite Hj, Hi in Hst, Hchk.
  destruct (required_status c) as [st|] eqn:E; [|done].
  specialize (Hst st eq_refl).
  destruct (checks_index c) eqn:Ec.
  - specialize (Hchk eq_refl). lia.
  - assert (k < EscrowData.milestoneCount (escrow_at s j)); [|lia].
    apply I2. rewrite Hst. destruct c; simpl in *; congruence.
Qed.

(** What is paid plus what is still open never grows. *)
Lemma transition_outstanding s s' j :
  Inv s j -> transition s s' ->
  EscrowData.paidAmount (escrow_at s' j) + unsettled_total s' j
    <= EscrowData.paidAmount (escrow_at s j) + unsettled_total s j.
Proof.
  intros (I1 & I2 & I3) (i & k & E & M & [He Hm] & L).
  destruct L as (Ht & Hc & Ha & Hk & Hp & Hr).
  rewrite He. destruct (decide (j = i)) as [->|Hne].
  - assert (Hin : M = milestone_at s i k
                  \/ k < EscrowData.milestoneCount (escrow_at s i)).
    { destruct Hk as [?|[?|?]]; auto. }
    destruct Hin as [HM | Hlt].
    + assert (unsettled_total s' i = unsettled_total s i) as ->.
      { apply sum_milestones_ext; [rewrite He, decide_True; auto|].
        intros l _. rewrite Hm.
        destruct (decide (i = i /\ l = k)) as [[_ ->]|]; congruence. }
      rewrite HM in Hp. lia.
    + assert (unsettled_total s' i + open_amount (milestone_at s i k)
              = unsettled_total s i + open_amount M) as U.
      { unfold unsettled_total.
        rewrite (sum_milestones_update open_amount s s' i k).
        - rewrite Hm, decide_True; auto.
        - rewrite He, decide_True; auto.
        - assumption.
        - intros l Hl. rewrite Hm, decide_False; [reflexivity | tauto]. }
      lia.
  - assert (unsettled_total s' j = unsettled_total s j) as ->; [|lia].
    apply sum_milestones_ext; [rewrite He, decide_False; auto|].
    intros l _. rewrite Hm, decide_False; [reflexivity | tauto].
Qed.

(** X11. A partial refund rules out Released.  From a fresh escrow, once
    a dispute is resolved with less than the milestone amount going to
    the beneficiary, no later run brings the escrow to Released:
    [paidAmount] can no longer reach [totalAmount]. *)
Theorem partial_refund_rules_out_release
    env calls1 calls2 s0 j k b r msg s' :
  fresh s0 j = true ->
  let s := run env calls1 s0 in
  resolveDispute env msg j k b r s = Ok (tt, s') ->
  b < Milestone.amount (milestone_at s j k) ->
  EscrowData.status (escrow_at (run env calls2 s') j) <> Released /\
  EscrowData.paidAmount (escrow_at (run env calls2 s') j)
    < EscrowData.totalAmount (escrow_at (run env calls2 s') j).
Proof.
  intros Hf s H Hb.
  pose proof (run_inv env calls1 s0 j (fresh_inv s0 j Hf)) as I. fold s in I.
  pose proof (step_transition env msg (CResolveDispute j k b r) s s' H) as T.
  pose proof (transition_inv s s' j I T) as I'.
  assert (EscrowData.paidAmount (escrow_at s' j) + unsettled_total s' j
          < EscrowData.totalAmount (escrow_at s' j)) as Hlt.
  { destruct (transition_static s s' T j) as (Ht & Hc & _).
    destruct I as (I1 & I2 & _).
    apply resolveDispute_effect in H as (_ & _ & _ & Hms & _ & He & Hm).
    assert (k < EscrowData.milestoneCount (escrow_at s j)) as Hk
      by (apply I2; rewrite Hms; discriminate).
    destruct (updates_both s s' j k _ _ He Hm) as [Ue Um].
    assert (unsettled_total s' j + open_amount (milestone_at s j k)
            = unsettled_total s j + open_amount (milestone_at s' j k)) as U.
    { unfold unsettled_total. apply sum_milestones_update; auto.
      intros l Hl. rewrite Um, decide_False; [reflexivity | tauto]. }
    rewrite (Um j k), decide_True in U by auto.
    unfold open_amount in U. rewrite Hms in U. cbn in U.
    rewrite Ht. rewrite (Ue j), decide_True by auto.
    unfold resolved. rewrite settle_paid. cbn.
    case_bool_decide; cbn; lia. }
  assert (Inv (run env calls2 s') j /\
          EscrowData.paidAmount (escrow_at (run env calls2 s') j)
            + unsettled_total (run env calls2 s') j
          < EscrowData.totalAmount (escrow_at (run env calls2 s') j))
    as [(_ & _ & I3) Hlt'].
  { apply (run_ind env (fun s2 =>
      Inv s2 j /\
      EscrowData.paidAmount (escrow_at s2 j) + unsettled_total s2 j
        < EscrowData.totalAmount (escrow_at s2 j))); [by split|].
    intros s1 s2 [I1 L1] T1. split; [by eapply transition_inv|].
    destruct (transition_static s1 s2 T1 j) as (Ht & _).
    pose proof (transition_outstanding s1 s2 j I1 T1). lia. }
  split; [|lia]. intros HR. specialize (I3 HR). lia.
Qed.

(** ** How calls compose *)

(** A committed call leaves the contract as callable as it found it. *)
Lemma dispatch_flags env msg c s s' :
  dispatch env msg c s = Ok (tt, s') ->
  nextEscrowId s' = nextEscrowId s /\
  paused s' = paused s /\
  entered s' = false.
Proof.
  destruct c; simpl; intros H; unfold_ops H; tx_inv H; norm; auto.
Qed.

Lemma dispatch_callable env msg c s s' j :
  dispatch env msg c s = Ok (tt, s') ->
  callable s j = true -> callable s' j = true.
Proof.
  intros H (Hv & Hp & _)%callable_elim.
  apply dispatch_flags in H as (Hn & Hp' & He).
  apply callable_intro; congruence.
Qed.

Lemma disputeMilestone_commits env msg i k r s :
  let m := milestone_at s i k in
  callable s i = true ->
  sender msg = EscrowData.depositor (escrow_at s i) ->
  Milestone.status m = Submitted ->
  Milestone.submittedAt m + DISPUTE_PERIOD env <= MAX_UINT256 ->
  timestamp msg <= Milestone.submittedAt m + DISPUTE_PERIOD env ->
  exists s', disputeMilestone env msg i k r s = Ok (tt, s').
Proof.
  intros m (Hv & Hp & Hg)%callable_elim Hs Hm Hmax Ht. subst m.
  eexists. tx_fwd. reflexivity.
Qed.

(** X12. The dispute window runs from the latest submission.  After a
    committed [submitMilestone] or [resubmitMilestone] at time [t], the
    depositor's [disputeMilestone] commits at any time up to
    [t + DISPUTE_PERIOD], whenever the milestone was first submitted, and
    reverts with "Dispute period expired" after that. *)
Theorem window_runs_from_last_submission env msg msg' c i k d r s s' :
  c = CSubmitMilestone i k d \/ c = CResubmitMilestone i k d ->
  dispatch env msg c s = Ok (tt, s') ->
  sender msg' = EscrowData.depositor (escrow_at s i) ->
  timestamp msg + DISPUTE_PERIOD env <= MAX_UINT256 ->
  (timestamp msg' <= timestamp msg + DISPUTE_PERIOD env ->
   exists s'', disputeMilestone env msg' i k r s' = Ok (tt, s'') /\
               Milestone.status (milestone_at s'' i k) = MDisputed) /\
  (timestamp msg + DISPUTE_PERIOD env < timestamp msg' ->
   disputeMilestone env msg' i k r s'
     = Revert (Error "Dispute period expired")).
Proof.
  intros Hc H Hs Hmax.
  pose proof (dispatch_summary env msg c s s' H) as ([He Hm] & Hcal & _).
  pose proof (dispatch_callable env msg c s s' i H) as Hcal'.
  assert (call_escrow c = i /\ call_index c = k /\
          milestone_after msg c s
            = submitted (timestamp msg) d (milestone_at s i k))
    as (Ei & Ek & Ea) by (destruct Hc as [-> | ->]; done).
  rewrite Ei, Ek, Ea in *.
  specialize (Hcal' Hcal).
  assert (milestone_at s' i k
          = submitted (timestamp msg) d (milestone_at s i k)) as Em
    by (rewrite (Hm i k), decide_True; auto).
  assert (escrow_at s' i = escrow_at s i) as Ee.
  { rewrite (He i), decide_True by auto.
    destruct Hc as [-> | ->]; reflexivity. }
  destruct (submitted_description (timestamp msg) d (milestone_at s i k))
    as [_ Hsub].
  split.
  - intros Ht.
    destruct (disputeMilestone_commits env msg' i k r s') as [s'' H2];
      rewrite ?Em, ?Ee, ?Hsub, ?submitted_status; auto.
    exists s''. split; [exact H2|].
    apply disputeMilestone_effect in H2 as (_ & _ & _ & _ & _ & _ & Hm2).
    unfold milestone_at at 1. rewrite Hm2, lookup_insert_eq. reflexivity.
  - intros Ht. apply callable_elim in Hcal' as (Hv & Hp & Hg).
    rewrite <- Ee in Hs.
    assert (Milestone.status (milestone_at s' i k) = Submitted) as Hst
      by (rewrite Em; apply submitted_status).
    assert (Milestone.submittedAt (milestone_at s' i k) = timestamp msg)
      as Hat by (rewrite Em; exact Hsub).
    clear - Hv Hp Hg Hs Hst Hat Hmax Ht.
    tx_fwd. reflexivity.
Qed.

(** ** The reward claim inside an approval *)

Lemma same_but_log_refl s : same_but_log s s.
Proof. destruct s. eexists. reflexivity. Qed.

Lemma alike_bind {A B} (m1 m2 : Tx A) (k1 k2 : A -> Tx B) :
  alike m1 m2 -> (forall a, alike (k1 a) (k2 a)) ->
  alike (bind m1 k1) (bind m2 k2).
Proof.
  intros Hm Hk s1 s2 Hs. specialize (Hm s1 s2 Hs). unfold bind.
  destruct (m1 s1) as [[a1 s1']|f1], (m2 s2) as [[a2 s2']|f2];
    simpl in Hm; try contradiction.
  - destruct Hm as [-> Hs']. by apply Hk.
  - exact Hm.
Qed.

Lemma alike_ret {A} (a : A) : alike (ret a) (ret a).
Proof. intros s1 s2 Hs. simpl. auto. Qed.

Lemma alike_require c r : alike (require c r) (require c r).
Proof. intros s1 s2 Hs. destruct c; simpl; auto. Qed.

Lemma alike_checked_add a b : alike (checked_add a b) (checked_add a b).
Proof.
  intros s1 s2 Hs. unfold checked_add. case_bool_decide; simpl; auto.
Qed.

Lemma alike_checked_sub a b : alike (checked_sub a b) (checked_sub a b).
Proof.
  intros s1 s2 Hs. unfold checked_sub. case_bool_decide; simpl; auto.
Qed.

Lemma alike_read {A} (g : Storage -> A) :
  (forall s1 s2, same_but_log s1 s2 -> g s1 = g s2) ->
  alike (read g) (read g).
Proof. intros Hg s1 s2 Hs. simpl. auto. Qed.

Lemma alike_write (g : Storage -> Storage) :
  (forall s1 s2, same_but_log s1 s2 -> same_but_log (g s1) (g s2)) ->
  alike (write g) (write g).
Proof. intros Hg s1 s2 Hs. simpl. auto. Qed.

Lemma alike_when c (b1 b2 : Tx unit) :
  alike b1 b2 -> alike (when c b1) (when c b2).
Proof. intros Hb. destruct c; simpl; [exact Hb | apply alike_ret]. Qed.

Lemma alike_emit ev1 ev2 : alike (emit ev1) (emit ev2).
Proof.
  intros s1 s2 [evs ->]. simpl. split; [reflexivity|].
  eexists. reflexivity.
Qed.

Lemma alike_skip_emit ev : alike (ret tt) (emit ev).
Proof.
  intros s1 s2 [evs ->]. simpl. split; [reflexivity|].
  eexists. reflexivity.
Qed.

Lemma alike_emit_skip ev : alike (emit ev) (ret tt).
Proof.
  intros s1 s2 [evs ->]. simpl. split; [reflexivity|].
  eexists. reflexivity.
Qed.

(** Two reward contracts whose failures the [try] statement handles. *)
Lemma alike_claimReward env1 env2 msg v sg :
  caught (appClaim env1 (sender msg) 0 v sg) = true ->
  caught (appClaim env2 (sender msg) 0 v sg) = true ->
  alike (claimReward env1 msg v sg) (claimReward env2 msg v sg).
Proof.
  intros H1 H2. unfold claimReward.
  apply alike_bind.
  { apply alike_read. intros s1 s2 [evs ->]. reflexivity. }
  intros rewards. apply alike_when.
  destruct (appClaim env1 (sender msg) 0 v sg) as [[|]|r1| |],
           (appClaim env2 (sender msg) 0 v sg) as [[|]|r2| |];
    try discriminate H1; try discriminate H2; cbn [negb when];
    first [apply alike_emit | apply alike_skip_emit | apply alike_emit_skip
          | apply alike_ret].
Qed.

Ltac alike_leaf :=
  first
    [ apply alike_require | apply alike_ret
    | apply alike_checked_add | apply alike_checked_sub
    | apply alike_emit
    | apply alike_read; intros ? ? [? ->]; reflexivity
    | apply alike_write; intros ? ? [? ->]; eexists; reflexivity ].

Ltac alike_tac :=
  repeat first
    [ apply alike_bind; [|intros ?]
    | apply alike_when
    | alike_leaf ].

(** X13. A reward claim that fails inside the callee changes the event
    log of the approval and nothing else.  Take two reward contracts
    behind [engagementRewards] whose [appClaim] call is handled by the
    [try] statement, whether it returns true or false or reverts in the
    callee with or without a reason.  [approveMilestone] then commits
    with the one exactly when it commits with the other, the two
    storages differ in the event log at most, and where it reverts it
    reverts with the same failure. *)
Theorem caught_claim_failure_is_contained env f msg i k v sg s :
  caught (appClaim env (sender msg) 0 v sg) = true ->
  caught (f (sender msg) 0 v sg) = true ->
  agree (approveMilestone env msg i k v sg s)
        (approveMilestone (with_appClaim f env) msg i k v sg s).
Proof.
  intros H1 H2.
  assert (alike (approveMilestone env msg i k v sg)
                (approveMilestone (with_appClaim f env) msg i k v sg)) as Ha.
  { unfold_ops_goal.
    unfold _updateReputation, add_completedEscrows, emit.
    cbv zeta. cbn [with_appClaim MIN_REP_ELIGIBLE_ESCROW_VALUE
                   REPUTATION_PER_MILESTONE REPUTATION_PER_ESCROW
                   transferSucceeds].
    repeat first
      [ apply alike_claimReward; assumption
      | apply alike_bind; [|intros ?]
      | apply alike_when
      | alike_leaf ]. }
  apply Ha, same_but_log_refl.
Qed.

(** ** Reputation and completion counters *)

Lemma silent_refl s : silent s s.
Proof. destruct s. do 2 eexists. reflexivity. Qed.

Lemma silent_trans s1 s2 s3 : silent s1 s2 -> silent s2 s3 -> silent s1 s3.
Proof.
  intros (r & ev & ->) (r' & ev' & ->). do 2 eexists. reflexivity.
Qed.

Lemma when_silent c body s u s' :
  (forall s', body s = Ok (u, s') -> silent s s') ->
  when c body s = Ok (u, s') -> silent s s'.
Proof.
  intros Hb [[_ H] | [_ ->]]%when_Ok; [auto | apply silent_refl].
Qed.

Lemma updateReputation_silent user points reason s u s' :
  _updateReputation user points reason s = Ok (u, s') -> silent s s'.
Proof.
  unfold _updateReputation, emit. intros H.
  repeat (apply bind_Ok in H; destruct H as (? & ? & ? & H); cbv beta in H).
  repeat match goal with
  | H : read _ _ = Ok _ |- _ => apply read_Ok in H; destruct H as [? ?]
  | H : write _ _ = Ok _ |- _ => apply write_Ok in H
  | H : checked_add _ _ _ = Ok _ |- _ =>
      apply checked_add_Ok in H; destruct H as (? & ? & ?)
  end; subst.
  do 2 eexists. reflexivity.
Qed.

Lemma reputation_pair_silent c u1 p1 r1 u2 p2 r2 s u s' :
  when c (_updateReputation u1 p1 r1;; _updateReputation u2 p2 r2) s
    = Ok (u, s') ->
  silent s s'.
Proof.
  apply when_silent. intros s2 H.
  apply bind_Ok in H; destruct H as (? & s1 & H1 & H2).
  eapply silent_trans; eauto using updateReputation_silent.
Qed.

Lemma claimReward_silent env msg v sg s u s' :
  claimReward env msg v sg s = Ok (u, s') -> silent s s'.
Proof.
  unfold claimReward. intros H.
  apply bind_Ok in H; destruct H as (r & s1 & [-> ->]%read_Ok & H).
  revert H. apply when_silent. intros s2.
  assert (forall ev s3, emit ev s = Ok (u, s3) -> silent s s3) as Hemit.
  { intros ev s3 H%write_Ok. subst. destruct s. do 2 eexists. reflexivity. }
  destruct (appClaim _ _ _ _ _);
    [apply when_silent; intros s3 | | | discriminate]; apply Hemit.
Qed.

Lemma claimReward_Ok env msg v sg s u s' :
  claimReward env msg v sg s = Ok (u, s') ->
  engagementRewards s = 0 \/
  caught (appClaim env (sender msg) 0 v sg) = true.
Proof.
  unfold claimReward. rewrite bind_read.
  destruct (decide (engagementRewards s = 0)) as [?|Hne]; [auto|].
  rewrite bool_decide_eq_false_2 by assumption. cbn [negb when].
  destruct (appClaim _ _ _ _ _); [auto..|discriminate].
Qed.

(** As [tx_inv], but keeping track of the completion counters and of the
    reward claim. *)
Ltac tx_inv_fine H :=
  lazymatch type of H with
  | bind _ _ _ = Ok _ =>
      let a := fresh "a" in
      let s1 := fresh "s" in
      let Hm := fresh "Hm" in
      apply bind_Ok in H; destruct H as (a & s1 & Hm & H); cbv beta in H;
      tx_inv_fine Hm; tx_inv_fine H
  | ret _ _ = Ok _ =>
      apply ret_Ok in H; destruct H as [? ?]; subst
  | read _ _ = Ok _ =>
      let E := fresh "E" in
      apply read_Ok in H; destruct H as [H E]; norm_in H; subst
  | write _ _ = Ok _ => apply write_Ok in H; norm_in H; subst
  | require _ _ _ = Ok _ =>
      let E := fresh "E" in
      apply require_Ok in H; destruct H as [H E]; norm_in H; subst
  | checked_add _ _ _ = Ok _ =>
      let E := fresh "E" in
      let E' := fresh "E" in
      apply checked_add_Ok in H; destruct H as (H & E & E'); subst
  | checked_sub _ _ _ = Ok _ =>
      let E := fresh "E" in
      let E' := fresh "E" in
      apply checked_sub_Ok in H; destruct H as (H & E & E'); subst
  | claimReward _ _ _ _ _ = Ok _ =>
      let K := fresh "K" in
      pose proof (claimReward_Ok _ _ _ _ _ _ _ H) as K; norm_in K;
      apply claimReward_silent in H; destruct H as (? & ? & H);
      norm_in H; subst
  | when _ (_updateReputation _ _ _) _ = Ok _ =>
      apply (when_silent _ _ _ _ _
               (fun s' => updateReputation_silent _ _ _ _ _ s')) in H;
      destruct H as (? & ? & H); norm_in H; subst
  | when _ (bind (_updateReputation _ _ _) _) _ = Ok _ =>
      apply reputation_pair_silent in H; destruct H as (? & ? & H);
      norm_in H; subst
  | when _ _ _ = Ok _ =>
      let C := fresh "C" in
      apply when_Ok in H; destruct H as [[C H] | [C H]];
      [tx_inv_fine H | subst]
  | _ => idtac
  end.

(** ** Approval, completion and what the other calls leave alone *)

(** X14. An approval pays the milestone, once and in full.  A committed
    [approveMilestone] makes exactly one payment, of the milestone amount
    to the beneficiary in the escrow's token; the custody counter of that
    token drops by the amount and no other counter moves; [paidAmount]
    grows by the amount; the milestone is Approved at the time of the
    call; and the escrow is Released exactly when this brings
    [paidAmount] to [totalAmount]. *)
Theorem approval_pays_the_milestone env msg i k v sg s s' :
  approveMilestone env msg i k v sg s = Ok (tt, s') ->
  let e := escrow_at s i in
  let m := milestone_at s i k in
  let amount := Milestone.amount m in
  transfers s' =
    (transfers s ++ [mkTransfer (EscrowData.token e)
                       (EscrowData.beneficiary e) amount])%list /\
  amount <= counter_at (escrowedAmount s) (EscrowData.token e) /\
  counter_at (escrowedAmount s') (EscrowData.token e)
    = counter_at (escrowedAmount s) (EscrowData.token e) - amount /\
  (forall t, t <> EscrowData.token e ->
     counter_at (escrowedAmount s') t = counter_at (escrowedAmount s) t) /\
  EscrowData.paidAmount (escrow_at s' i) = EscrowData.paidAmount e + amount /\
  milestone_at s' i k = approved_m (timestamp msg) m /\
  (EscrowData.status (escrow_at s' i) = Released <->
   EscrowData.paidAmount e + amount = EscrowData.totalAmount e) /\
  (EscrowData.status (escrow_at s' i) = InProgress <->
   EscrowData.paidAmount e + amount <> EscrowData.totalAmount e).
Proof.
  intros H e m amount.
  pose proof (dispatch_funds env msg (CApproveMilestone i k v sg) s s' H)
    as [Htr Hcust].
  pose proof (approveMilestone_effect _ _ _ _ _ _ _ _ H)
    as (_ & _ & Hst & _ & _ & He & Hm).
  cbn [payments call_escrow call_index] in Htr, Hcust.
  fold e m amount in Htr, Hcust.
  split; [exact Htr|].
  pose proof (Hcust (EscrowData.token e)) as Htok.
  unfold outflow in Htok. cbn [foldr tr_token tr_amount] in Htok.
  rewrite bool_decide_eq_true_2 in Htok by reflexivity.
  split; [lia|]. split; [lia|].
  split.
  { intros t Ht. specialize (Hcust t). unfold outflow in Hcust.
    cbn [foldr tr_token tr_amount] in Hcust.
    rewrite bool_decide_eq_false_2 in Hcust by congruence. lia. }
  assert (escrow_at s' i = approved amount e) as ->.
  { unfold escrow_at at 1. rewrite He, lookup_insert_eq. reflexivity. }
  assert (milestone_at s' i k = approved_m (timestamp msg) m) as ->.
  { unfold milestone_at at 1. rewrite Hm, lookup_insert_eq. reflexivity. }
  fold e in Hst.
  unfold approved, settle.
  cbn [EscrowData.paidAmount EscrowData.totalAmount
       EscrowData.with_paidAmount].
  case_bool_decide;
    cbn [EscrowData.status EscrowData.with_status EscrowData.paidAmount
         EscrowData.with_paidAmount];
    rewrite ?Hst; repeat split; try tauto; try congruence; try discriminate.
Qed.

(** X15. Completion is counted when an approval releases the escrow.  A
    committed [approveMilestone] that brings [paidAmount] to
    [totalAmount] adds one to [completedEscrows] of the beneficiary and
    then one to that of the depositor; one that does not leaves the
    counters as they were. *)
Theorem approval_counts_completion env msg i k v sg s s' :
  approveMilestone env msg i k v sg s = Ok (tt, s') ->
  let e := escrow_at s i in
  let amount := Milestone.amount (milestone_at s i k) in
  completedEscrows s' =
    if bool_decide (EscrowData.paidAmount e + amount
                    = EscrowData.totalAmount e)
    then credited (EscrowData.depositor e)
           (credited (EscrowData.beneficiary e) (completedEscrows s))
    else completedEscrows s.
Proof.
  intros H. unfold_ops H. unfold add_completedEscrows in H.
  tx_inv_fine H; props; norm;
    cbn [EscrowData.paidAmount EscrowData.totalAmount
         EscrowData.with_paidAmount EscrowData.depositor
         EscrowData.beneficiary] in *;
    decide_hyps; reflexivity.
Qed.

(** X16. A release by dispute resolution is not counted.  A committed
    [resolveDispute] leaves [completedEscrows] and the reputations of
    all users as they were, also when it pays the escrow in full and so
    sets it to Released. *)
Theorem resolution_counts_nothing env msg i k b r s s' :
  resolveDispute env msg i k b r s = Ok (tt, s') ->
  completedEscrows s' = completedEscrows s /\
  reputation s' = reputation s /\
  (EscrowData.paidAmount (escrow_at s i) + b
     = EscrowData.totalAmount (escrow_at s i) ->
   EscrowData.status (escrow_at s' i) = Released).
Proof.
  intros H.
  pose proof (resolveDispute_effect _ _ _ _ _ _ _ _ H)
    as (_ & _ & _ & _ & _ & He & _).
  split; [|split].
  - unfold_ops H; tx_inv H; reflexivity.
  - unfold_ops H; tx_inv H; reflexivity.
  - intros Hfull. unfold escrow_at at 1. rewrite He, lookup_insert_eq.
    cbn [default from_option id]. unfold resolved, settle.
    rewrite bool_decide_eq_true_2; [reflexivity|].
    case_bool_decide; cbn [EscrowData.paidAmount EscrowData.with_paidAmount
                           EscrowData.totalAmount EscrowData.with_status];
      [exact Hfull|].
    assert (b = 0) as -> by lia. rewrite N.add_0_r in Hfull. exact Hfull.
Qed.

(** X17. The bookkeeping calls move nothing.  [startWork],
    [submitMilestone], [rejectMilestone], [resubmitMilestone] and
    [disputeMilestone] make no payment and leave the custody counters,
    every [paidAmount], the completion counters and the reputations as
    they were, whether they commit or revert. *)
Theorem bookkeeping_moves_nothing env s msg c :
  pays c = false ->
  let s' := step env s (msg, c) in
  transfers s' = transfers s /\
  escrowedAmount s' = escrowedAmount s /\
  completedEscrows s' = completedEscrows s /\
  reputation s' = reputation s /\
  forall j, EscrowData.paidAmount (escrow_at s' j)
            = EscrowData.paidAmount (escrow_at s j).
Proof.
  intros Hp s'. subst s'.
  destruct (step_cases_dispatch env s msg c) as [-> | H]; [tauto|].
  revert H. generalize (step env s (msg, c)). intros s' H.
  destruct c as [i|i k d|i k v sg|i k r|i k d|i k r|i k b r];
    try discriminate Hp; simpl in H.
  all: unfold_ops H; tx_inv H; props; norm.
  all: repeat split; try reflexivity.
  all: intros j; destruct (decide (j = i)) as [->|Hne];
    rewrite ?lookup_insert_eq, ?lookup_insert_ne by congruence;
    cbn [default from_option id]; reflexivity.
Qed.

(** X21. A reward claim that fails outside the [try] blocks the
    approval.  With a reward contract set, when the [appClaim] call fails
    in the caller (no code at the address, or return data that does not
    decode), [approveMilestone] reverts and the storage is as it was: the
    milestone is not approved and nothing is paid. *)
Theorem uncaught_claim_blocks_approval env msg i k v sg s :
  engagementRewards s <> 0 ->
  appClaim env (sender msg) 0 v sg = ClaimUncaught ->
  (exists f, approveMilestone env msg i k v sg s = Revert f) /\
  commit (approveMilestone env msg i k v sg) s = s.
Proof.
  intros Hr Hu. apply not_committed. intros s' H.
  unfold_ops H. unfold add_completedEscrows in H.
  tx_inv_fine H;
    match goal with
    | K : _ \/ caught _ = true |- _ =>
        destruct K as [K|K]; [contradiction | rewrite Hu in K; discriminate]
    end.
Qed.

(** ** After the release *)

Lemma paid_up_step env msg c s s' j :
  Inv s j -> paid_up s j ->
  dispatch env msg c s = Ok (tt, s') -> paid_up s' j.
Proof.
  intros I [Hpaid Hst] H.
  pose proof (transition_inv s s' j I (step_transition env msg c s s' H))
    as (I1 & _ & _).
  pose proof (transition_total s s' j (step_transition env msg c s s' H))
    as Htot.
  apply dispatch_summary in H as ([He _] & _ & _ & Hreq & _).
  unfold paid_up. cbv zeta in *. rewrite (He j) in *.
  destruct (decide (j = call_escrow c)) as [->|Hne]; [|tauto].
  destruct c as [i|i k d|i k v sg|i k r|i k d|i k r|i k b r];
    cbn [call_escrow call_index required_escrow_status escrow_after] in *;
    try (specialize (Hreq _ eq_refl); destruct Hst; congruence).
  - cbn [EscrowData.paidAmount EscrowData.totalAmount EscrowData.status
         EscrowData.with_status]. auto.
  - clear Hreq. unfold resolved in *. rewrite settle_paid, ?settle_total in *.
    assert (EscrowData.paidAmount
              (if bool_decide (0 < b)
               then EscrowData.with_paidAmount
                      (EscrowData.paidAmount (escrow_at s i) + b)
                      (escrow_at s i)
               else escrow_at s i)
            = EscrowData.totalAmount (escrow_at s i)) as Hfull.
    { revert I1 Htot. case_bool_decide;
        cbn [EscrowData.paidAmount EscrowData.totalAmount
             EscrowData.with_paidAmount EscrowData.with_status]; lia. }
    split.
    + revert Hfull. case_bool_decide;
        cbn [EscrowData.paidAmount EscrowData.totalAmount
             EscrowData.with_paidAmount EscrowData.with_status]; lia.
    + left. unfold settle. rewrite bool_decide_eq_true_2; [reflexivity|].
      revert Hfull. case_bool_decide;
        cbn [EscrowData.paidAmount EscrowData.totalAmount
             EscrowData.with_paidAmount EscrowData.with_status]; lia.
Qed.

Lemma paid_up_run env cs s j :
  Inv s j -> paid_up s j -> Inv (run env cs s) j /\ paid_up (run env cs s) j.
Proof.
  intros I P.
  apply (run_committed_ind env (fun s' => Inv s' j /\ paid_up s' j));
    [auto|].
  intros s1 msg c s2 [I1 P1] H. split.
  - eapply transition_inv; [exact I1|]. eapply step_transition; eauto.
  - eapply paid_up_step; eauto.
Qed.

(** X22. After the release, no more work and no more approvals.  From a
    fresh escrow, once a run has brought it to Released, after any
    further calls it is still paid in full and either Released or
    Disputed, never InProgress or Pending again; so [startWork],
    [submitMilestone], [approveMilestone], [rejectMilestone] and
    [resubmitMilestone] on it revert and change nothing, whoever calls
    them and whatever the milestone index. *)
Theorem released_blocks_approval env s0 j calls1 calls2 :
  fresh s0 j = true ->
  EscrowData.status (escrow_at (run env calls1 s0) j) = Released ->
  let s := run env calls2 (run env calls1 s0) in
  paid_up s j /\
  forall msg c,
    call_escrow c = j ->
    required_escrow_status c = Some Pending \/
    required_escrow_status c = Some InProgress ->
    (exists f, dispatch env msg c s = Revert f) /\ step env s (msg, c) = s.
Proof.
  intros Hf Hrel s. subst s.
  pose proof (run_inv env calls1 s0 j (fresh_inv s0 j Hf)) as I.
  assert (paid_up (run env calls1 s0) j) as P.
  { split; [|by left]. destruct I as (_ & _ & I3). by apply I3. }
  destruct (paid_up_run env calls2 _ j I P) as [_ P'].
  split; [exact P'|].
  intros msg c Hc Hreq.
  assert (forall s', dispatch env msg c (run env calls2 (run env calls1 s0))
                     <> Ok (tt, s')) as Hno.
  { intros s' H. apply dispatch_summary in H as (_ & _ & _ & Hst & _).
    rewrite Hc in Hst. destruct P' as [_ P'].
    destruct Hreq as [Hreq|Hreq]; specialize (Hst _ Hreq);
      destruct P'; congruence. }
  apply not_committed in Hno as [Hrev Hcommit].
  split; [exact Hrev|]. exact Hcommit.
Qed.

Lemma closed_frozen env cs s j :
  closed s j ->
  closed (run env cs s) j /\
  escrow_at (run env cs s) j = escrow_at s j /\
  forall l, milestone_at (run env cs s) j l = milestone_at s j l.
Proof.
  intros Hcl.
  apply (run_committed_ind env (fun s' =>
    closed s' j /\ escrow_at s' j = escrow_at s j /\
    forall l, milestone_at s' j l = milestone_at s j l)); [auto|].
  intros s1 msg c s2 (Hc1 & He1 & Hm1) H.
  pose proof (closed_rejects env msg c s1 s2 j Hc1 H) as Hne.
  assert (call_escrow c <> j) as Hne' by (destruct c; exact Hne).
  split; [|split].
  - pose proof (closed_step env s1 (msg, c) j Hc1) as Hc2.
    unfold step, commit in Hc2. simpl in Hc2. rewrite H in Hc2. exact Hc2.
  - apply dispatch_summary in H as ([He _] & _).
    rewrite (He j), decide_False by congruence. exact He1.
  - intros l. apply dispatch_summary in H as ([_ Hm] & _).
    rewrite (Hm j l), decide_False by (intros [? _]; congruence).
    apply Hm1.
Qed.

(** X23. With positive amounts, a released escrow is frozen.  From a
    fresh escrow whose milestones are all worth something, once a run
    has brought it to Released, further calls change neither its record
    nor any of its milestone records, and [disputeMilestone] and
    [resolveDispute] on it revert and change nothing: no milestone is
    left Submitted or Disputed. *)
Theorem released_is_frozen env s0 j calls1 calls2 msg k b r :
  fresh s0 j = true ->
  positive_amounts s0 j = true ->
  EscrowData.status (escrow_at (run env calls1 s0) j) = Released ->
  let s1 := run env calls1 s0 in
  let s := run env calls2 s1 in
  escrow_at s j = escrow_at s1 j /\
  (forall l, milestone_at s j l = milestone_at s1 j l) /\
  ((exists f, disputeMilestone env msg j k r s = Revert f) /\
   commit (disputeMilestone env msg j k r) s = s) /\
  ((exists f, resolveDispute env msg j k b r s = Revert f) /\
   commit (resolveDispute env msg j k b r) s = s).
Proof.
  intros Hf Hpos Hrel s1 s.
  assert (closed s1 j) as Hcl1.
  { split; [apply run_inv, fresh_inv, Hf|].
    split; [by apply positive_run | exact Hrel]. }
  destruct (closed_frozen env calls2 s1 j Hcl1) as (Hcl & He & Hm).
  split; [exact He|]. split; [exact Hm|].
  split; apply not_committed; intros s' H.
  - exact (closed_rejects env msg (CDisputeMilestone j k r) s s' j
             Hcl H eq_refl).
  - exact (closed_rejects env msg (CResolveDispute j k b r) s s' j
             Hcl H eq_refl).
Qed.

(** ** The freelancer statistics card *)

Lemma count_disjoint (p q : FreelancerStats.Escrow -> bool) l :
  (forall x, p x = true -> q x = false) ->
  (FreelancerStats.count p l + FreelancerStats.count q l <= length l)%nat.
Proof.
  intros Hpq. unfold FreelancerStats.count.
  induction l as [|x l IH]; simpl; [lia|].
  destruct (p x) eqn:Hp; [rewrite (Hpq x Hp)|destruct (q x)]; simpl; lia.
Qed.

Lemma all_approved_not_terminated l :
  forallb (FreelancerStats.has_status "approved") l = true ->
  existsb (fun m => FreelancerStats.has_status "disputed" m
                    || FreelancerStats.has_status "rejected" m) l = false.
Proof.
  induction l as [|m l IH]; simpl; [reflexivity|].
  intros [Hm Hl]%andb_prop. rewrite (IH Hl), orb_false_r.
  unfold FreelancerStats.has_status in *.
  apply bool_decide_eq_true_1 in Hm. rewrite Hm. reflexivity.
Qed.

Lemma completed_not_terminated e :
  FreelancerStats.isCompleted e = true ->
  FreelancerStats.isEscrowTerminated e = false.
Proof.
  unfold FreelancerStats.isCompleted, FreelancerStats.isEscrowTerminated.
  case_bool_decide; [discriminate|]. apply all_approved_not_terminated.
Qed.

(** X18. Terminated escrows are counted once.  An escrow with a disputed
    or rejected milestone is counted as terminated and in no other
    class, so the terminated count together with any one of the
    completed, active and pending counts never exceeds the number of
    escrows. *)
Theorem terminated_counted_once escrows :
  let n := length escrows in
  let t := FreelancerStats.terminatedProjects escrows in
  (t + FreelancerStats.completedProjects escrows <= n)%nat /\
  (t + FreelancerStats.activeProjects escrows <= n)%nat /\
  (t + FreelancerStats.pendingProjects escrows <= n)%nat.
Proof.
  intros n t. subst n t.
  unfold FreelancerStats.terminatedProjects,
    FreelancerStats.completedProjects, FreelancerStats.activeProjects,
    FreelancerStats.pendingProjects.
  repeat split; apply count_disjoint; intros e He.
  - destruct (FreelancerStats.isCompleted e) eqn:Hc; [|reflexivity].
    apply completed_not_terminated in Hc. congruence.
  - unfold FreelancerStats.isActive. rewrite He. reflexivity.
  - unfold FreelancerStats.isPending. rewrite He. reflexivity.
Qed.

(** X19. A completed project and the other classes.  A project whose
    milestones are all approved is counted as active exactly when the
    status string of the escrow is "active", and as pending exactly when
    it is "pending": the classes are not disjoint. *)
Theorem completed_and_the_other_classes e :
  FreelancerStats.isCompleted e = true ->
  FreelancerStats.isActive e
    = bool_decide (FreelancerStats.status e = "active") /\
  FreelancerStats.isPending e
    = bool_decide (FreelancerStats.status e = "pending").
Proof.
  intros Hc. pose proof (completed_not_terminated e Hc) as Ht.
  unfold FreelancerStats.isActive, FreelancerStats.isPending.
  rewrite Ht. unfold FreelancerStats.isCompleted in Hc.
  destruct (bool_decide (length (FreelancerStats.milestones e) = 0%nat))
    eqn:Hlen; [discriminate|].
  rewrite Hc. apply bool_decide_eq_false_1 in Hlen. split.
  - destruct (bool_decide (FreelancerStats.status e = "active"));
      [reflexivity|]. rewrite andb_false_r. reflexivity.
  - destruct (bool_decide (FreelancerStats.status e = "pending"));
      [reflexivity|].
    destruct (FreelancerStats.milestones e) as [|m l]; [done|].
    simpl in Hc |- *. apply andb_prop in Hc as [Hm _].
    unfold FreelancerStats.has_status in *.
    apply bool_decide_eq_true_1 in Hm. rewrite Hm. reflexivity.
Qed.

(** X20. Pending on milestones is also active.  A project counted as
    pending although the status string of its escrow is not "pending"
    (all its milestones are "pending") is counted as active as well. *)
Theorem pending_on_milestones_is_active e :
  FreelancerStats.isPending e = true ->
  FreelancerStats.status e <> "pending" ->
  FreelancerStats.isActive e = true /\
  FreelancerStats.isCompleted e = false.
Proof.
  unfold FreelancerStats.isPending, FreelancerStats.isActive,
    FreelancerStats.isCompleted.
  intros Hp Hst.
  destruct (FreelancerStats.isEscrowTerminated e); [discriminate|].
  rewrite bool_decide_eq_false_2 in Hp by assumption.
  destruct (bool_decide (length (FreelancerStats.milestones e) = 0%nat))
    eqn:Hlen; [discriminate|].
  apply bool_decide_eq_false_1 in Hlen.
  destruct (FreelancerStats.milestones e) as [|m l]; [done|].
  simpl in Hp |- *. apply andb_prop in Hp as [Hm _].
  unfold FreelancerStats.has_status in *.
  apply bool_decide_eq_true_1 in Hm. rewrite Hm. simpl.
  split; [|reflexivity].
  destruct (bool_decide (FreelancerStats.status e = "active")); reflexivity.
Qed.

(** ** The properties on the worked example *)

Lemma settled_is_final_witness :
  let s := run Demo.env Demo.completed Demo.s0 in
  let calls := [ (Demo.by_client 1005, CDisputeMilestone 1 0 "late") ] in
  settled (Milestone.status (milestone_at s 1 0)) = true /\
  milestone_at (run Demo.env calls s) 1 0 = milestone_at s 1 0.
Proof.
  intros s calls.
  assert (settled (Milestone.status (milestone_at s 1 0)) = true)
    as Hs by by_compute.
  exact (conj Hs (settled_is_final Demo.env calls s 1 0 Hs)).
Defined.

Lemma call_is_local_witness :
  let s' := step Demo.env Demo.s0 (Demo.by_freelancer 1000, CStartWork 1) in
  escrow_at s' 2 = escrow_at Demo.s0 2 /\
  milestone_at s' 1 1 = milestone_at Demo.s0 1 1.
Proof.
  intros s'.
  pose proof (call_is_local Demo.env Demo.s0
                (Demo.by_freelancer 1000, CStartWork 1)) as W.
  cbv zeta in W. destruct W as [We Wm].
  split; [apply We | apply Wm]; by_compute.
Defined.

Lemma pending_is_untouched_witness :
  let s := run Demo.env [ (Demo.by_client 1000, CStartWork 1) ] Demo.s0 in
  fresh Demo.s0 1 = true /\
  EscrowData.status (escrow_at s 1) = Pending /\
  EscrowData.workStarted (escrow_at s 1) = false /\
  EscrowData.paidAmount (escrow_at s 1) = 0 /\
  forall l, Milestone.status (milestone_at s 1 l) = NotStarted.
Proof.
  intros s.
  assert (fresh Demo.s0 1 = true) as Hf by by_compute.
  assert (EscrowData.status (escrow_at s 1) = Pending) as Hp by by_compute.
  pose proof (pending_is_untouched Demo.env
                [ (Demo.by_client 1000, CStartWork 1) ] Demo.s0 1 Hf Hp) as W.
  exact (conj Hf (conj Hp W)).
Defined.

Lemma started_for_good_witness :
  let s := run Demo.env Demo.working Demo.s0 in
  let s' := run Demo.env [ (Demo.by_freelancer 1001,
                            CSubmitMilestone 1 0 "") ] s in
  EscrowData.status (escrow_at s 1) <> Pending /\
  EscrowData.status (escrow_at s' 1) <> Pending /\
  (exists f, startWork (Demo.by_freelancer 1002) 1 s' = Revert f) /\
  commit (startWork (Demo.by_freelancer 1002) 1) s' = s'.
Proof.
  intros s s'.
  assert (EscrowData.status (escrow_at s 1) <> Pending) as Hs by by_compute.
  pose proof (started_for_good Demo.env
                [ (Demo.by_freelancer 1001, CSubmitMilestone 1 0 "") ]
                s 1 (Demo.by_freelancer 1002) Hs) as W.
  exact (conj Hs W).
Defined.

Lemma released_is_paid_in_full_witness :
  let s := run Demo.env Demo.completed Demo.s0 in
  fresh Demo.s0 1 = true /\
  EscrowData.status (escrow_at s 1) = Released /\
  EscrowData.paidAmount (escrow_at s 1)
    = EscrowData.totalAmount (escrow_at s 1).
Proof.
  intros s.
  assert (fresh Demo.s0 1 = true) as Hf by by_compute.
  assert (EscrowData.status (escrow_at s 1) = Released) as Hr by by_compute.
  pose proof (released_is_paid_in_full Demo.env Demo.completed Demo.s0 1
                Hf Hr) as W.
  exact (conj Hf (conj Hr W)).
Defined.

Lemma index_beyond_array_reverts_witness :
  let s := run Demo.env Demo.both_submitted Demo.s0 in
  let msg := Demo.by_client 1003 in
  let c := CDisputeMilestone 1 5 "late" in
  fresh Demo.s0 1 = true /\
  EscrowData.milestoneCount (escrow_at s 1) <= 5 /\
  required_status c <> None /\
  (exists f, dispatch Demo.env msg c s = Revert f) /\
  step Demo.env s (msg, c) = s.
Proof.
  intros s msg c.
  assert (fresh Demo.s0 1 = true) as Hf by by_compute.
  assert (EscrowData.milestoneCount (escrow_at s 1) <= 5) as Hk.
  { vm_compute. discriminate. }
  assert (required_status c <> None) as Hr by by_compute.
  pose proof (index_beyond_array_reverts Demo.env Demo.both_submitted
                Demo.s0 1 5 msg c Hf Hk eq_refl eq_refl Hr) as W.
  exact (conj Hf (conj Hk (conj Hr W))).
Defined.

Lemma partial_refund_rules_out_release_witness :
  let s := run Demo.env Demo.disputed Demo.s0 in
  let tx := resolveDispute Demo.env (Demo.by_client 1004) 1 0 40 "partial" in
  let calls := [ (Demo.by_client 1005, CApproveMilestone 1 1 0 "") ] in
  fresh Demo.s0 1 = true /\
  tx s = Ok (tt, commit tx s) /\
  40 < Milestone.amount (milestone_at s 1 0) /\
  EscrowData.status (escrow_at (run Demo.env calls (commit tx s)) 1)
    <> Released.
Proof.
  intros s tx calls.
  assert (fresh Demo.s0 1 = true) as Hf by by_compute.
  assert (tx s = Ok (tt, commit tx s)) as Ht by by_compute.
  assert (40 < Milestone.amount (milestone_at s 1 0)) as Hb by by_compute.
  pose proof (partial_refund_rules_out_release Demo.env Demo.disputed calls
                Demo.s0 1 0 40 "partial" (Demo.by_client 1004) (commit tx s)
                Hf Ht Hb) as W.
  destruct W as [W _].
  exact (conj Hf (conj Ht (conj Hb W))).
Defined.

Lemma window_runs_from_last_submission_witness :
  let s := run Demo.env Demo.working Demo.s0 in
  let msg := Demo.by_freelancer 1001 in
  let c := CSubmitMilestone 1 0 "" in
  let s' := step Demo.env s (msg, c) in
  dispatch Demo.env msg c s = Ok (tt, s') /\
  (exists s'',
     disputeMilestone Demo.env (Demo.by_client 605801) 1 0 "late" s'
       = Ok (tt, s'') /\
     Milestone.status (milestone_at s'' 1 0) = MDisputed) /\
  disputeMilestone Demo.env (Demo.by_client 605802) 1 0 "late" s'
    = Revert (Error "Dispute period expired").
Proof.
  intros s msg c s'.
  assert (dispatch Demo.env msg c s = Ok (tt, s')) as Hd by by_compute.
  assert (timestamp msg + DISPUTE_PERIOD Demo.env <= MAX_UINT256) as Hmax.
  { vm_compute. discriminate. }
  pose proof (window_runs_from_last_submission Demo.env msg
                (Demo.by_client 605801) c 1 0 "" "late" s s'
                (or_introl eq_refl) Hd) as W1.
  pose proof (window_runs_from_last_submission Demo.env msg
                (Demo.by_client 605802) c 1 0 "" "late" s s'
                (or_introl eq_refl) Hd) as W2.
  assert (sender (Demo.by_client 605801)
          = EscrowData.depositor (escrow_at s 1)) as Hs by by_compute.
  destruct (W1 Hs Hmax) as [Hin _].
  destruct (W2 Hs Hmax) as [_ Hout].
  split; [exact Hd|]. split.
  - apply Hin. vm_compute. discriminate.
  - apply Hout. by_compute.
Defined.

Lemma approval_pays_the_milestone_witness :
  let s := run Demo.env Demo.both_submitted Demo.s0 in
  let tx := approveMilestone Demo.env (Demo.by_client 1003) 1 0 0 "" in
  tx s = Ok (tt, commit tx s) /\
  transfers (commit tx s) = [ mkTransfer Demo.cUSD Demo.freelancer 100 ] /\
  counter_at (escrowedAmount (commit tx s)) Demo.cUSD = 200 /\
  EscrowData.paidAmount (escrow_at (commit tx s) 1) = 100.
Proof.
  intros s tx.
  assert (tx s = Ok (tt, commit tx s)) as Ht by by_compute.
  pose proof (approval_pays_the_milestone Demo.env (Demo.by_client 1003)
                1 0 0 "" s (commit tx s) Ht) as W.
  cbv zeta in W. destruct W as (Htr & _ & Hc & _ & Hp & _).
  split; [exact Ht|]. split; [|split].
  - etransitivity; [exact Htr | by_compute].
  - etransitivity; [exact Hc | by_compute].
  - etransitivity; [exact Hp | by_compute].
Defined.

Lemma approval_counts_completion_witness :
  let s := run Demo.env Demo.released Demo.s0 in
  let tx := approveMilestone Demo.env (Demo.by_client 1004) 1 1 0 "" in
  tx s = Ok (tt, commit tx s) /\
  completedEscrows (commit tx s) = {[ Demo.freelancer := 1; Demo.client := 1 ]}.
Proof.
  intros s tx.
  assert (tx s = Ok (tt, commit tx s)) as Ht by by_compute.
  pose proof (approval_counts_completion Demo.env (Demo.by_client 1004)
                1 1 0 "" s (commit tx s) Ht) as W.
  cbv zeta in W.
  split; [exact Ht|]. etransitivity; [exact W | by_compute].
Defined.

Lemma resolution_counts_nothing_witness :
  let s := run Demo.env Demo.disputed Demo.z0 in
  let tx := resolveDispute Demo.env (Demo.by_client 1004) 1 0 100 "done" in
  tx s = Ok (tt, commit tx s) /\
  completedEscrows (commit tx s) = completedEscrows s /\
  reputation (commit tx s) = reputation s /\
  EscrowData.status (escrow_at (commit tx s) 1) = Released.
Proof.
  intros s tx.
  assert (tx s = Ok (tt, commit tx s)) as Ht by by_compute.
  pose proof (resolution_counts_nothing Demo.env (Demo.by_client 1004)
                1 0 100 "done" s (commit tx s) Ht) as W.
  destruct W as (Hc & Hr & Hrel).
  split; [exact Ht|]. split; [exact Hc|]. split; [exact Hr|].
  apply Hrel. by_compute.
Defined.

Lemma bookkeeping_moves_nothing_witness :
  let s := run Demo.env Demo.both_submitted Demo.s0 in
  let c := CDisputeMilestone 1 0 "incomplete" in
  let s' := step Demo.env s (Demo.by_client 1003, c) in
  pays c = false /\
  transfers s' = transfers s /\
  escrowedAmount s' = escrowedAmount s /\
  completedEscrows s' = completedEscrows s /\
  reputation s' = reputation s /\
  forall j, EscrowData.paidAmount (escrow_at s' j)
            = EscrowData.paidAmount (escrow_at s j).
Proof.
  intros s c s'.
  assert (pays c = false) as Hp by reflexivity.
  exact (conj Hp (bookkeeping_moves_nothing Demo.env s
                    (Demo.by_client 1003) c Hp)).
Defined.

Lemma completed_and_the_other_classes_witness :
  let e := FreelancerStats.mkEscrow "300" "300" "active"
             [ FreelancerStats.Item.mk "approved";
               FreelancerStats.Item.mk "approved" ] in
  FreelancerStats.isCompleted e = true /\
  FreelancerStats.isActive e
    = bool_decide (FreelancerStats.status e = "active") /\
  FreelancerStats.isPending e
    = bool_decide (FreelancerStats.status e = "pending").
Proof.
  intros e.
  assert (FreelancerStats.isCompleted e = true) as Hc by by_compute.
  exact (conj Hc (completed_and_the_other_classes e Hc)).
Defined.

Lemma pending_on_milestones_is_active_witness :
  let e := FreelancerStats.mkEscrow "300" "0" "created"
             [ FreelancerStats.Item.mk "pending";
               FreelancerStats.Item.mk "pending" ] in
  FreelancerStats.isPending e = true /\
  FreelancerStats.status e <> "pending" /\
  FreelancerStats.isActive e = true /\
  FreelancerStats.isCompleted e = false.
Proof.
  intros e.
  assert (FreelancerStats.isPending e = true) as Hp by by_compute.
  assert (FreelancerStats.status e <> "pending") as Hs by by_compute.
  exact (conj Hp (conj Hs (pending_on_milestones_is_active e Hp Hs))).
Defined.

Lemma caught_claim_failure_is_contained_witness :
  let s := with_rewards 99 (run Demo.env Demo.both_submitted Demo.s0) in
  let msg := Demo.by_client 1003 in
  let f := fun (_ _ : address) (_ : uint256) (_ : string) =>
             ClaimReturned true in
  caught (appClaim Demo.env (sender msg) 0 0 "") = true /\
  caught (f (sender msg) 0 0 "") = true /\
  agree (approveMilestone Demo.env msg 1 0 0 "" s)
        (approveMilestone (with_appClaim f Demo.env) msg 1 0 0 "" s).
Proof.
  intros s msg f.
  assert (caught (appClaim Demo.env (sender msg) 0 0 "") = true)
    as H1 by reflexivity.
  assert (caught (f (sender msg) 0 0 "") = true) as H2 by reflexivity.
  exact (conj H1 (conj H2
           (caught_claim_failure_is_contained Demo.env f msg 1 0 0 "" s
              H1 H2))).
Defined.

Lemma uncaught_claim_blocks_approval_witness :
  let s := with_rewards 99 (run Demo.env Demo.both_submitted Demo.s0) in
  let msg := Demo.by_client 1003 in
  let env := with_appClaim (fun _ _ _ _ => ClaimUncaught) Demo.env in
  engagementRewards s <> 0 /\
  appClaim env (sender msg) 0 0 "" = ClaimUncaught /\
  (exists f, approveMilestone env msg 1 0 0 "" s = Revert f) /\
  commit (approveMilestone env msg 1 0 0 "") s = s.
Proof.
  intros s msg env.
  assert (engagementRewards s <> 0) as Hr by by_compute.
  assert (appClaim env (sender msg) 0 0 "" = ClaimUncaught)
    as Hu by reflexivity.
  exact (conj Hr (conj Hu
           (uncaught_claim_blocks_approval env msg 1 0 0 "" s Hr Hu))).
Defined.

Lemma released_blocks_approval_witness :
  let calls2 := [ (Demo.by_client 1004, CDisputeMilestone 1 1 "late") ] in
  let s := run Demo.env calls2 (run Demo.env Demo.released Demo.z0) in
  let msg := Demo.by_client 1005 in
  let c := CApproveMilestone 1 1 0 "" in
  fresh Demo.z0 1 = true /\
  EscrowData.status (escrow_at (run Demo.env Demo.released Demo.z0) 1)
    = Released /\
  paid_up s 1 /\
  (exists f, dispatch Demo.env msg c s = Revert f) /\
  step Demo.env s (msg, c) = s.
Proof.
  intros calls2 s msg c.
  assert (fresh Demo.z0 1 = true) as Hf by by_compute.
  assert (EscrowData.status
            (escrow_at (run Demo.env Demo.released Demo.z0) 1) = Released)
    as Hr by by_compute.
  pose proof (released_blocks_approval Demo.env Demo.z0 1 Demo.released
                calls2 Hf Hr) as W.
  cbv zeta in W. destruct W as [Hp Hno].
  exact (conj Hf (conj Hr (conj Hp
           (Hno msg c eq_refl (or_intror eq_refl))))).
Defined.

Lemma released_is_frozen_witness :
  let calls2 := [ (Demo.by_client 1005, CDisputeMilestone 1 0 "late");
                  (Demo.by_freelancer 1006, CSubmitMilestone 1 1 "again") ] in
  let s1 := run Demo.env Demo.completed Demo.s0 in
  let s := run Demo.env calls2 s1 in
  let msg := Demo.by_client 1007 in
  fresh Demo.s0 1 = true /\
  positive_amounts Demo.s0 1 = true /\
  EscrowData.status (escrow_at s1 1) = Released /\
  escrow_at s 1 = escrow_at s1 1 /\
  (forall l, milestone_at s 1 l = milestone_at s1 1 l) /\
  ((exists f, disputeMilestone Demo.env msg 1 1 "late" s = Revert f) /\
   commit (disputeMilestone Demo.env msg 1 1 "late") s = s) /\
  ((exists f, resolveDispute Demo.env msg 1 1 10 "late" s = Revert f) /\
   commit (resolveDispute Demo.env msg 1 1 10 "late") s = s).
Proof.
  intros calls2 s1 s msg.
  assert (fresh Demo.s0 1 = true) as Hf by by_compute.
  assert (positive_amounts Demo.s0 1 = true) as Hp by by_compute.
  assert (EscrowData.status (escrow_at s1 1) = Released) as Hr by by_compute.
  pose proof (released_is_frozen Demo.env Demo.s0 1 Demo.completed calls2
                msg 1 10 "late" Hf Hp Hr) as W.
  exact (conj Hf (conj Hp (conj Hr W))).
Defined.

